(** * iex_data: a verification development for the IEX market-data client

    The program under study is [src/iex_data.py]: one class, [API], whose
    methods validate a list of ticker symbols against the server's reference
    list, fetch one or more URLs, flatten the JSON answers into pandas
    tables and reshape a few columns.

    The embedding follows the source method by method.  What the source
    takes from its libraries is modelled first: parsed JSON ([Json]),
    calendar timestamps ([Clock]), the fragment of pandas the methods use
    ([Frame]) and urllib with the console ([Net]).  The methods of the
    class are in the module [API], the vocabulary of the properties in
    [Behaviour]; the lemmas and the properties C1 to C10 follow.

    How the libraries are read:
    - a table is its column names, its row labels and its rows; a row
      binds column names to cells, and a column it does not bind reads as
      the missing value, as pandas fills it in;
    - a cell holds the JSON value of the reply.  pandas keeps each column
      under one dtype and converts its cells to it (an integer next to a
      missing value or a null becomes a float, a null becomes the missing
      value); that conversion is not modelled.  The value of a cell is
      therefore stated only where the conversion cannot reach it: for the
      [symbol] tag the methods write, for a time column decoded from
      integers only, and relative to the table fetched;
    - [json_normalize] flattens nested dicts into compound names joined by
      a dot and leaves arrays as single cells; the order in which it lists
      the columns is the order of first appearance, and no property below
      depends on that order.  A plain key that contains a dot and equals
      the compound name of a nested leaf is kept beside the leaf, where
      pandas keeps the leaf alone; the columns read by name below have no
      dot in their names;
    - on an array item that is not a dict, [json_normalize] raises, as it
      does in the pandas releases of the program's time (0.2x); later
      releases (1.x) make a row of missing values of such an item.  The
      class of the exception differs between releases; what matters below
      is that it raises;
    - a selection by a list of labels ([df[[...]]], [set_index([...])])
      raises one KeyError that names all the labels that are not columns;
    - [pd.to_datetime] with a unit works on a whole column: it is computed
      for a column of integers, which pandas decodes exactly, and taken as
      given ([Pandas]) for any other column, which pandas converts through
      floating point; without a unit (the texts of the news endpoint) it
      is taken as given, cell by cell;
    - a server is any function from the exchange so far and the address
      requested to a reply, so its replies may change between requests. *)

From Stdlib Require Import List String Ascii ZArith Bool Lia.
From Stdlib Require Import DecimalString.
Import ListNotations.

Set Warnings "-register-all".

Local Open Scope string_scope.
Local Open Scope list_scope.
Local Open Scope Z_scope.

(* ================================================================== *)
(** ** Python values and exceptions *)

(** The exceptions the program can end with.  None of them is caught
    anywhere in [iex_data.py]. *)
Inductive exn : Type :=
| URLError                       (* urlopen: the server could not be reached *)
| HTTPError (code : Z)           (* urlopen: final status outside 200..299 *)
| JSONDecodeError                (* json.loads: the body is not JSON *)
| KeyError (key : string)        (* a missing dict key or table column *)
| KeyErrorLabels (labels : list string)
                                 (* KeyError of a selection by a list of labels:
                                    its message lists the labels that are
                                    not columns *)
| TypeError                      (* wrong kind of value for an operation *)
| AttributeError                 (* json_normalize met a record that is no dict *)
| OutOfBoundsDatetime            (* to_datetime: outside the Timestamp range *)
| ConversionError.               (* to_datetime: a value it cannot convert *)

Inductive result (A : Type) : Type :=
| Ok (a : A)
| Err (e : exn).
Arguments Ok {A} a.
Arguments Err {A} e.

Definition rbind {A B} (r : result A) (f : A -> result B) : result B :=
  match r with
  | Ok a => f a
  | Err e => Err e
  end.

Fixpoint rmap {A B} (f : A -> result B) (l : list A) : result (list B) :=
  match l with
  | [] => Ok []
  | a :: t => rbind (f a) (fun b => rbind (rmap f t) (fun bs => Ok (b :: bs)))
  end.

(* ================================================================== *)
(** ** JSON, as [json.loads] returns it *)

Module Json.

(** A parsed JSON document.  Numbers with a fraction or an exponent are
    kept as the literal the server sent ([JFloat]): the program never
    computes with them.  An object is a Python dict in insertion order;
    a key is looked up at its first binding. *)
Inductive json : Type :=
| JNull
| JBool (b : bool)
| JNum (z : Z)
| JFloat (literal : string)
| JStr (s : string)
| JArr (items : list json)
| JObj (fields : list (string * json)).

Definition is_obj (j : json) : bool :=
  match j with
  | JObj _ => true
  | _ => false
  end.

Fixpoint lookup {A} (k : string) (d : list (string * A)) : option A :=
  match d with
  | [] => None
  | (k', v) :: t => if String.eqb k k' then Some v else lookup k t
  end.

(** [data[nest]] on a parsed document. *)
Definition getitem (data : json) (key : string) : result json :=
  match data with
  | JObj fields =>
      match lookup key fields with
      | Some v => Ok v
      | None => Err (KeyError key)
      end
  | _ => Err TypeError
  end.

End Json.
Export Json.

(* ================================================================== *)
(** ** Calendar timestamps *)

Module Clock.

Record Timestamp : Type := mkTimestamp {
  year : Z; month : Z; day : Z;
  hour : Z; minute : Z; second : Z; millisecond : Z
}.

(** Proleptic Gregorian date of a day number counted from 1970-01-01. *)
Definition civil_from_days (days : Z) : Z * Z * Z :=
  let z := days + 719468 in
  let era := z / 146097 in
  let doe := z - era * 146097 in
  let yoe := (doe - doe / 1460 + doe / 36524 - doe / 146096) / 365 in
  let doy := doe - (365 * yoe + yoe / 4 - yoe / 100) in
  let mp := (5 * doy + 2) / 153 in
  let d := doy - (153 * mp + 2) / 5 + 1 in
  let m := if mp <? 10 then mp + 3 else mp - 9 in
  let y := yoe + era * 400 in
  (if m <=? 2 then y + 1 else y, m, d).

Definition ms_per_day : Z := 86400000.

(** The UTC timestamp of a count of milliseconds since the epoch. *)
Definition of_epoch_ms (ms : Z) : Timestamp :=
  let '(y, m, d) := civil_from_days (ms / ms_per_day) in
  let r := ms mod ms_per_day in
  mkTimestamp y m d (r / 3600000) ((r / 60000) mod 60) ((r / 1000) mod 60)
              (r mod 1000).

(** pandas keeps a Timestamp as a signed 64-bit count of nanoseconds, with
    the least value reserved for NaT. *)
Definition representable (ms : Z) : bool :=
  (- 9223372036854775807 <=? ms * 1000000) &&
  (ms * 1000000 <=? 9223372036854775807).

End Clock.
Export Clock.

(* ================================================================== *)
(** ** Tables: the fragment of pandas the program uses *)

Module Frame.

(** A table cell.  [NaN] is the missing value pandas fills in where a
    record has no binding for a column; [NaT] is the missing timestamp. *)
Inductive cell : Type :=
| NaN
| NaT
| V (j : json)
| T (t : Timestamp).

(** A row binds the columns it has a value for, in order; a column the
    row does not bind reads as [NaN]. *)
Definition Row : Type := list (string * cell).

Inductive Index : Type :=
| RangeIndex                              (* rows numbered from 0 *)
| Keyed (name : string) (labels : list cell).

Record DataFrame : Type := mkDataFrame {
  columns : list string;
  index : Index;
  rows : list Row
}.

(** [pd.DataFrame({})]: no columns, no rows. *)
Definition empty_frame : DataFrame := mkDataFrame [] RangeIndex [].

Definition cell_at (c : string) (r : Row) : cell :=
  match lookup c r with
  | Some v => v
  | None => NaN
  end.

Definition has_column (c : string) (cols : list string) : bool :=
  existsb (String.eqb c) cols.

(** Keys in the order of their first appearance. *)
Fixpoint add_columns (seen : list string) (more : list string) : list string :=
  match more with
  | [] => seen
  | c :: t =>
      if has_column c seen then add_columns seen t
      else add_columns (seen ++ [c]) t
  end.

(** A dict with one binding replaced in place, or added at the end. *)
Fixpoint set_binding {A} (k : string) (v : A) (d : list (string * A))
  : list (string * A) :=
  match d with
  | [] => [(k, v)]
  | (k', v') :: t =>
      if String.eqb k k' then (k, v) :: t else (k', v') :: set_binding k v t
  end.

Definition del_binding {A} (k : string) (d : list (string * A))
  : list (string * A) :=
  filter (fun kv => negb (String.eqb k (fst kv))) d.

(** [nested_to_record]: a nested dict contributes its leaves under the
    compound name [outer.inner]; every other value (an array too) stays a
    single cell.  At the top level the plain bindings keep their place and
    the leaves of the nested dicts follow them. *)
Fixpoint flatten_value (name : string) (v : json) {struct v}
  : list (string * json) :=
  match v with
  | JObj fields =>
      (fix go (l : list (string * json)) : list (string * json) :=
         match l with
         | [] => []
         | (k, x) :: t => flatten_value (name ++ "." ++ k)%string x ++ go t
         end) fields
  | _ => [(name, v)]
  end.

Definition nested_to_record (d : list (string * json)) : list (string * json) :=
  filter (fun kv => negb (is_obj (snd kv))) d
  ++ flat_map (fun kv => flatten_value (fst kv) (snd kv))
              (filter (fun kv => is_obj (snd kv)) d).

Definition row_of_record (d : list (string * json)) : Row :=
  map (fun kv => (fst kv, V (snd kv))) (nested_to_record d).

(** [pd.DataFrame(list of dicts)]. *)
Definition frame_of_records (ds : list (list (string * json))) : DataFrame :=
  let rs := map row_of_record ds in
  mkDataFrame (add_columns [] (flat_map (map fst) rs)) RangeIndex rs.

Definition as_record (j : json) : result (list (string * json)) :=
  match j with
  | JObj fields => Ok fields
  | _ => Err AttributeError
  end.

(** [json_normalize(data)] with no record path: an empty list gives the
    empty table, a dict is one record, a list must hold dicts. *)
Definition json_normalize (data : json) : result DataFrame :=
  match data with
  | JArr [] => Ok empty_frame
  | JArr items => rbind (rmap as_record items) (fun ds => Ok (frame_of_records ds))
  | JObj fields => Ok (frame_of_records [fields])
  | JStr _ => Err AttributeError
  | _ => Err TypeError
  end.

(** [df[c]]: the cells of one column, top to bottom. *)
Definition column (df : DataFrame) (c : string) : result (list cell) :=
  if has_column c (columns df) then Ok (map (cell_at c) (rows df))
  else Err (KeyError c).

(** [df[c] = values], one value per row. *)
Fixpoint set_cells (c : string) (values : list cell) (rs : list Row) : list Row :=
  match rs, values with
  | r :: rs', v :: values' => set_binding c v r :: set_cells c values' rs'
  | _, _ => rs
  end.

Definition set_column (df : DataFrame) (c : string) (values : list cell)
  : DataFrame :=
  mkDataFrame (add_columns (columns df) [c]) (index df)
              (set_cells c values (rows df)).

(** [df[c] = scalar]. *)
Definition set_scalar (df : DataFrame) (c : string) (v : cell) : DataFrame :=
  mkDataFrame (add_columns (columns df) [c]) (index df)
              (map (set_binding c v) (rows df)).

(** [del df[c]]. *)
Definition del_column (df : DataFrame) (c : string) : result DataFrame :=
  if has_column c (columns df) then
    Ok (mkDataFrame (filter (fun c' => negb (String.eqb c c')) (columns df))
                    (index df) (map (del_binding c) (rows df)))
  else Err (KeyError c).

(** The labels of a selection that are not columns, in the order asked
    for. *)
Definition missing_labels (cs : list string) (cols : list string) : list string :=
  filter (fun c => negb (has_column c cols)) cs.

(** [df[[c1, ..., cn]]]: the named columns, in the order asked for.  When
    some are not columns, one KeyError names them all. *)
Definition select (df : DataFrame) (cs : list string) : result DataFrame :=
  match missing_labels cs (columns df) with
  | [] =>
      Ok (mkDataFrame cs (index df)
                      (map (fun r => map (fun c => (c, cell_at c r)) cs) (rows df)))
  | missing => Err (KeyErrorLabels missing)
  end.

(** [df.set_index([c], inplace=True)]: the column leaves the table and
    labels the rows.  The key is a list of labels, so a missing column
    raises the KeyError of a selection. *)
Definition set_index (df : DataFrame) (c : string) : result DataFrame :=
  if has_column c (columns df) then
    Ok (mkDataFrame (filter (fun c' => negb (String.eqb c c')) (columns df))
                    (Keyed c (map (cell_at c) (rows df)))
                    (map (del_binding c) (rows df)))
  else Err (KeyErrorLabels [c]).

(** [a.append(b, ignore_index=True)]: the rows of [a] then those of [b],
    renumbered; the columns of [a] followed by the new ones of [b]. *)
Definition append (a b : DataFrame) : DataFrame :=
  mkDataFrame (add_columns (columns a) (columns b)) RangeIndex (rows a ++ rows b).

(** What [x in set(series)] needs of the cells: [set] hashes each of
    them, and a Python list is not hashable. *)
Definition hashable (c : cell) : bool :=
  match c with
  | V (JArr _) => false
  | _ => true
  end.

Definition is_symbol (x : string) (c : cell) : bool :=
  match c with
  | V (JStr s) => String.eqb x s
  | _ => false
  end.

(** The integers of a column that holds nothing but integers: such a
    column has an integer dtype in pandas.  Any other cell (a missing
    value, a null, a fraction, a text) gives the column another dtype. *)
Fixpoint all_ints (cells : list cell) : option (list Z) :=
  match cells with
  | [] => Some []
  | V (JNum z) :: t =>
      match all_ints t with
      | Some zs => Some (z :: zs)
      | None => None
      end
  | _ :: _ => None
  end.

(** The parts of [pd.to_datetime] that are taken as given: what it makes,
    when a unit is passed, of a column that is not all integers (pandas
    then converts through floating point, or by parsing), and how it
    reads a cell when no unit is passed (the ISO texts of the news
    endpoint).  A conversion returns one value per cell. *)
Record Pandas : Type := mkPandas {
  convert_column_ms : list cell -> result (list cell);
  convert_column_ms_length :
    forall cells out,
      convert_column_ms cells = Ok out -> List.length out = List.length cells;
  parse_datetime : cell -> result cell
}.

(** [pd.to_datetime(column, unit='ms')].  A column of integers is
    decoded exactly, value by value; pandas converts by the dtype of the
    whole column, so every other column is left to [convert_column_ms]. *)
Definition to_datetime_ms (lib : Pandas) (cells : list cell)
  : result (list cell) :=
  match all_ints cells with
  | Some zs =>
      if forallb representable zs
      then Ok (map (fun z => T (of_epoch_ms z)) zs)
      else Err OutOfBoundsDatetime
  | None => convert_column_ms lib cells
  end.

End Frame.
Export Frame.

(* ================================================================== *)
(** ** The network and the console *)

Module Net.

(** What [response.read()] hands to [json.loads]: a text that is the
    serialisation of a document, or one that is not JSON at all. *)
Inductive body : Type :=
| NotJson
| Text (j : json).

(** The outcome of one [urlopen]: no response could be obtained, or a
    final response (redirects followed) with its status and body. *)
Inductive reply : Type :=
| Unreachable
| Http (status : Z) (b : body).

(** The run so far: every GET with the reply it got, oldest first, and
    the lines printed. *)
Record State : Type := mkState {
  requests : list (string * reply);
  stdout : list string
}.

(** The server: its reply to a GET, given the exchange so far.  The reply
    may change from one request to the next. *)
Definition World : Type := list (string * reply) -> string -> reply.

(** A method body: it reads the world, extends the run, and returns a
    value or ends with an exception. *)
Definition M (A : Type) : Type := World -> State -> State * result A.

Definition ret {A} (a : A) : M A := fun _ st => (st, Ok a).

Definition bind {A B} (m : M A) (f : A -> M B) : M B :=
  fun w st =>
    match m w st with
    | (st1, Ok a) => f a w st1
    | (st1, Err e) => (st1, Err e)
    end.

(** A pure step that may raise. *)
Definition lift {A} (r : result A) : M A := fun _ st => (st, r).

Definition is_success (status : Z) : bool :=
  (200 <=? status) && (status <? 300).

(** [urlopen(Request(url)).read()]. *)
Definition urlopen (url : string) : M body :=
  fun w st =>
    let rep := w (requests st) url in
    (mkState (requests st ++ [(url, rep)]) (stdout st),
     match rep with
     | Unreachable => Err URLError
     | Http status b => if is_success status then Ok b else Err (HTTPError status)
     end).

Definition json_loads (b : body) : result json :=
  match b with
  | NotJson => Err JSONDecodeError
  | Text j => Ok j
  end.

Definition print (line : string) : M unit :=
  fun _ st => (mkState (requests st) (stdout st ++ [line]), Ok tt).

(** [for x in l: acc = step x acc]. *)
Fixpoint for_each {A S} (l : list A) (step : A -> S -> M S) (acc : S) : M S :=
  match l with
  | [] => ret acc
  | x :: t => bind (step x acc) (for_each t step)
  end.

End Net.
Export Net.

Declare Scope py_scope.
Delimit Scope py_scope with py.
Notation "x <- m ;; k" := (bind m (fun x => k))
  (at level 100, m at next level, right associativity) : py_scope.
Notation "m ;;; k" := (bind m (fun _ => k))
  (at level 100, right associativity) : py_scope.

(* ================================================================== *)
(** ** The class [API] *)

Module API.

Local Open Scope py_scope.
Local Open Scope string_scope.

(** [str(n)] for an int, as [str.format] writes it. *)
Definition str (n : Z) : string := NilZero.string_of_int (Z.to_int n).

Definition _end_point_prefix : string := "https://api.iextrading.com/1.0/".

(** [if nest:] is false for [None] and for the empty string. *)
Definition truthy (nest : option string) : option string :=
  match nest with
  | Some "" => None
  | _ => nest
  end.

Definition _url_to_dataframe (url : string) (nest : option string) : M DataFrame :=
  elevations <- urlopen url ;;
  data <- lift (json_loads elevations) ;;
  match truthy nest with
  | Some key => lift (rbind (getitem data key) json_normalize)
  | None => lift (json_normalize data)
  end.

(** [set(valid_securities)]. *)
Definition py_set (cells : list cell) : result (list cell) :=
  if forallb hashable cells then Ok cells else Err TypeError.

(** [[x for x in securities if x in set(valid_securities)]]: the set is
    built anew for every [x]. *)
Fixpoint comprehension (securities : list string) (valid_securities : list cell)
  : result (list string) :=
  match securities with
  | [] => Ok []
  | x :: t =>
      rbind (py_set valid_securities) (fun s =>
      rbind (comprehension t valid_securities) (fun rest =>
      Ok (if existsb (is_symbol x) s then x :: rest else rest)))
  end.

Definition return_valid_securities (securities : list string) : M (list string) :=
  let suffix := "ref-data/symbols" in
  df <- _url_to_dataframe (_end_point_prefix ++ suffix) None ;;
  valid_securities <- lift (column df "symbol") ;;
  lift (comprehension securities valid_securities).

Definition invalid_message : string := "These stock(s) are invalid!".

Section Methods.

Context (lib : Pandas).

Definition get_latest_quote_and_trade (securities : list string)
  : M (option DataFrame) :=
  securities <- return_valid_securities securities ;;
  match securities with
  | _ :: _ =>
      let suffix := "tops?symbols=" in
      let symbols := String.concat "," securities in
      df <- _url_to_dataframe ((_end_point_prefix ++ suffix) ++ symbols) None ;;
      sale <- lift (rbind (column df "lastSaleTime") (to_datetime_ms lib)) ;;
      let df := set_column df "lastSaleTime" sale in
      updated <- lift (rbind (column df "lastUpdated") (to_datetime_ms lib)) ;;
      let df := set_column df "lastUpdated" updated in
      df <- lift (set_index df "symbol") ;;
      ret (Some df)
  | [] =>
      print invalid_message ;;;
      ret None
  end.

Definition get_latest_trade (securities : list string) : M (option DataFrame) :=
  securities <- return_valid_securities securities ;;
  match securities with
  | _ :: _ =>
      let suffix := "tops/last?symbols=" in
      let symbols := String.concat "," securities in
      df <- _url_to_dataframe ((_end_point_prefix ++ suffix) ++ symbols) None ;;
      time <- lift (rbind (column df "time") (to_datetime_ms lib)) ;;
      let df := set_column df "time" time in
      df <- lift (set_index df "symbol") ;;
      ret (Some df)
  | [] =>
      print invalid_message ;;;
      ret None
  end.

Definition news_columns : list string :=
  ["symbol"; "time"; "headline"; "summary"; "source"; "url"; "related"].

Definition get_latest_news (securities : list string) (count : Z)
  : M (option DataFrame) :=
  securities <- return_valid_securities securities ;;
  let final_df := empty_frame in
  match securities with
  | _ :: _ =>
      final_df <- for_each securities (fun symbol final_df =>
        let suffix := "stock/" ++ symbol ++ "/news/last/" ++ str count in
        df <- _url_to_dataframe (_end_point_prefix ++ suffix) None ;;
        time <- lift (rbind (column df "datetime") (rmap (parse_datetime lib))) ;;
        let df := set_column df "time" time in
        df <- lift (del_column df "datetime") ;;
        let df := set_scalar df "symbol" (V (JStr symbol)) in
        df <- lift (select df news_columns) ;;
        ret (append final_df df)) final_df ;;
      ret (Some final_df)
  | [] =>
      print invalid_message ;;;
      ret None
  end.

End Methods.

Definition get_financials (securities : list string) : M (option DataFrame) :=
  securities <- return_valid_securities securities ;;
  let final_df := empty_frame in
  match securities with
  | _ :: _ =>
      final_df <- for_each securities (fun symbol final_df =>
        let suffix := "stock/" ++ symbol ++ "/financials" in
        df <- _url_to_dataframe (_end_point_prefix ++ suffix) (Some "financials") ;;
        let df := set_scalar df "symbol" (V (JStr symbol)) in
        ret (append final_df df)) final_df ;;
      ret (Some final_df)
  | [] =>
      print invalid_message ;;;
      ret None
  end.

Definition get_earnings (securities : list string) : M (option DataFrame) :=
  securities <- return_valid_securities securities ;;
  let final_df := empty_frame in
  match securities with
  | _ :: _ =>
      final_df <- for_each securities (fun symbol final_df =>
        let suffix := "stock/" ++ symbol ++ "/earnings" in
        df <- _url_to_dataframe (_end_point_prefix ++ suffix) (Some "earnings") ;;
        let df := set_scalar df "symbol" (V (JStr symbol)) in
        ret (append final_df df)) final_df ;;
      ret (Some final_df)
  | [] =>
      print invalid_message ;;;
      ret None
  end.

Definition get_trade_bars_data (securities : list string) (bucket : string)
  : M (option DataFrame) :=
  securities <- return_valid_securities securities ;;
  let final_df := empty_frame in
  match securities with
  | _ :: _ =>
      final_df <- for_each securities (fun symbol final_df =>
        let suffix := "stock/" ++ symbol ++ "/chart/" ++ bucket in
        df <- _url_to_dataframe (_end_point_prefix ++ suffix) None ;;
        let df := set_scalar df "symbol" (V (JStr symbol)) in
        ret (append final_df df)) final_df ;;
      ret (Some final_df)
  | [] =>
      print invalid_message ;;;
      ret None
  end.

End API.
Export API.

(* ================================================================== *)
(** ** Vocabulary of the specification *)

Module Behaviour.

Local Open Scope string_scope.

(** The six public operations, with the extra argument two of them take. *)
Inductive Op : Type :=
| QuoteTrade
| Trade
| News (count : Z)
| Financials
| Earnings
| Bars (bucket : string).

Definition run (lib : Pandas) (op : Op) (securities : list string)
  : M (option DataFrame) :=
  match op with
  | QuoteTrade => get_latest_quote_and_trade lib securities
  | Trade => get_latest_trade lib securities
  | News count => get_latest_news lib securities count
  | Financials => get_financials securities
  | Earnings => get_earnings securities
  | Bars bucket => get_trade_bars_data securities bucket
  end.

(** The operations that fetch once per symbol; the other two send one
    request for all the symbols. *)
Definition per_symbol (op : Op) : bool :=
  match op with
  | QuoteTrade | Trade => false
  | _ => true
  end.

(** The address of the reference list. *)
Definition ref_url : string := _end_point_prefix ++ "ref-data/symbols".

(** The run after one more GET, and after one more printed line. *)
Definition sent (st : State) (url : string) (rep : reply) : State :=
  mkState (requests st ++ [(url, rep)])%list (stdout st).

Definition said (st : State) (line : string) : State :=
  mkState (requests st) (stdout st ++ [line])%list.

(** The exception a reply makes [urlopen] or [json.loads] raise, if any:
    the failures of the transport. *)
Definition transport_failure (rep : reply) : option exn :=
  match rep with
  | Unreachable => Some URLError
  | Http status b =>
      if is_success status then
        match b with
        | NotJson => Some JSONDecodeError
        | Text _ => None
        end
      else Some (HTTPError status)
  end.

(** [_url_to_dataframe] as a function of the reply it gets. *)
Definition frame_of_reply (nest : option string) (rep : reply) : result DataFrame :=
  match rep with
  | Unreachable => Err URLError
  | Http status b =>
      if is_success status then
        rbind (json_loads b) (fun data =>
          match truthy nest with
          | Some key => rbind (getitem data key) json_normalize
          | None => json_normalize data
          end)
      else Err (HTTPError status)
  end.

(** The symbol column of the reference table, and the validity gate, as
    functions of the reply to the reference fetch. *)
Definition reference_column (rep : reply) : result (list cell) :=
  rbind (frame_of_reply None rep) (fun df => column df "symbol").

(** [x in set(cells)] for a string [x]. *)
Definition listed (cells : list cell) (x : string) : bool :=
  existsb (is_symbol x) cells.

Definition validate (rep : reply) (securities : list string)
  : result (list string) :=
  rbind (reference_column rep) (comprehension securities).

(** The symbol-info objects of a reference document, and the symbols the
    server lists in it. *)
Definition records (doc : json) : list (list (string * json)) :=
  match doc with
  | JArr items =>
      flat_map (fun j => match j with JObj fields => [fields] | _ => [] end) items
  | JObj fields => [fields]
  | _ => []
  end.

Definition in_reference_list (rep : reply) (s : string) : Prop :=
  exists status doc fields,
    rep = Http status (Text doc) /\ In fields (records doc) /\
    In ("symbol", JStr s) fields.

(** [out] keeps some of the elements of [l], in the order of [l]. *)
Inductive Subsequence {A} : list A -> list A -> Prop :=
| sub_nil : Subsequence [] []
| sub_skip x out l : Subsequence out l -> Subsequence out (x :: l)
| sub_keep x out l : Subsequence out l -> Subsequence (x :: out) (x :: l).

(** A name with no separator in it cannot be a compound column name. *)
Fixpoint has_dot (s : string) : bool :=
  match s with
  | EmptyString => false
  | String c t => Ascii.eqb c "."%char || has_dot t
  end.

(** What each operation requests after validation: one target per valid
    symbol, or the valid symbols joined by commas. *)
Definition targets (op : Op) (valid : list string) : list string :=
  if per_symbol op then valid else [String.concat "," valid].

Definition url_of (op : Op) (target : string) : string :=
  match op with
  | QuoteTrade => (_end_point_prefix ++ "tops?symbols=") ++ target
  | Trade => (_end_point_prefix ++ "tops/last?symbols=") ++ target
  | News count =>
      _end_point_prefix ++ ("stock/" ++ target ++ "/news/last/" ++ str count)
  | Financials => _end_point_prefix ++ ("stock/" ++ target ++ "/financials")
  | Earnings => _end_point_prefix ++ ("stock/" ++ target ++ "/earnings")
  | Bars bucket =>
      _end_point_prefix ++ ("stock/" ++ target ++ "/chart/" ++ bucket)
  end.

Definition nest_of (op : Op) : option string :=
  match op with
  | Financials => Some "financials"
  | Earnings => Some "earnings"
  | _ => None
  end.

(** The column shaping of each operation, on the table fetched for one
    target. *)
Definition decode_ms (lib : Pandas) (c : string) (df : DataFrame)
  : result DataFrame :=
  rbind (rbind (column df c) (to_datetime_ms lib))
        (fun cells => Ok (set_column df c cells)).

Definition tag (symbol : string) (df : DataFrame) : DataFrame :=
  set_scalar df "symbol" (V (JStr symbol)).

Definition shape (lib : Pandas) (op : Op) (target : string) (df : DataFrame)
  : result DataFrame :=
  match op with
  | QuoteTrade =>
      rbind (decode_ms lib "lastSaleTime" df) (fun df =>
      rbind (decode_ms lib "lastUpdated" df) (fun df =>
      set_index df "symbol"))
  | Trade =>
      rbind (decode_ms lib "time" df) (fun df => set_index df "symbol")
  | News _ =>
      rbind (rbind (column df "datetime") (rmap (parse_datetime lib))) (fun time =>
      rbind (del_column (set_column df "time" time) "datetime") (fun df =>
      select (tag target df) news_columns))
  | _ => Ok (tag target df)
  end.

Definition handler (lib : Pandas) (op : Op) (target : string) (rep : reply)
  : result DataFrame :=
  rbind (frame_of_reply (nest_of op) rep) (shape lib op target).

(** One turn of the loop of a per-symbol operation, as a function of the
    reply to its GET. *)
Definition turn (lib : Pandas) (op : Op) (target : string) (acc : DataFrame)
  : M DataFrame :=
  fun w st =>
    let rep := w (requests st) (url_of op target) in
    (sent st (url_of op target) rep,
     rbind (handler lib op target rep) (fun d => Ok (append acc d))).

(** The table an operation returns from the tables of its targets. *)
Definition assemble (op : Op) (tables : list DataFrame) : DataFrame :=
  if per_symbol op then fold_left append tables empty_frame
  else hd empty_frame tables.

(** One fetched target: the reply its GET received and the table made of
    it. *)
Record Batch : Type := mkBatch {
  symbol : string;
  answer : reply;
  table : DataFrame
}.

Section Outcomes.

Context (lib : Pandas) (op : Op) (w : World).

(** The requests of an operation, target by target: each reply is
    handled before the next GET, and the first exception ends the loop. *)
Inductive Loop : list string -> State -> State -> result (list Batch) -> Prop :=
| Loop_done st :
    Loop [] st st (Ok [])
| Loop_raise t ts st e :
    handler lib op t (w (requests st) (url_of op t)) = Err e ->
    Loop (t :: ts) st (sent st (url_of op t) (w (requests st) (url_of op t)))
         (Err e)
| Loop_next t ts st d st' r :
    handler lib op t (w (requests st) (url_of op t)) = Ok d ->
    Loop ts (sent st (url_of op t) (w (requests st) (url_of op t))) st' r ->
    Loop (t :: ts) st st'
         (rbind r (fun bs =>
            Ok (mkBatch t (w (requests st) (url_of op t)) d :: bs))).

(** Every way a call of a public operation can end. *)
Inductive Outcome (securities : list string) (st : State)
  : State -> result (option DataFrame) -> Prop :=
| validation_raises st1 e :
    return_valid_securities securities w st = (st1, Err e) ->
    Outcome securities st st1 (Err e)
| none_valid st1 :
    return_valid_securities securities w st = (st1, Ok []) ->
    Outcome securities st (said st1 invalid_message) (Ok None)
| handling_raises st1 valid st' e :
    return_valid_securities securities w st = (st1, Ok valid) ->
    valid <> [] ->
    Loop (targets op valid) st1 st' (Err e) ->
    Outcome securities st st' (Err e)
| tables_returned st1 valid st' batches :
    return_valid_securities securities w st = (st1, Ok valid) ->
    valid <> [] ->
    Loop (targets op valid) st1 st' (Ok batches) ->
    Outcome securities st st' (Ok (Some (assemble op (map table batches)))).

End Outcomes.

(** A row tagged with a symbol. *)
Definition tagged (s : string) (r : Row) : Prop :=
  cell_at "symbol" r = V (JStr s).

(** A row that differs from another in one column at most. *)
Definition same_but (k : string) (r0 r : Row) : Prop :=
  forall c, c <> k -> cell_at c r = cell_at c r0.


(** Column [c] of table [df] is column [c] of table [df0] decoded from
    milliseconds. *)
Definition decoded_column (lib : Pandas) (c : string) (df0 df : DataFrame)
  : Prop :=
  to_datetime_ms lib (map (cell_at c) (rows df0))
  = Ok (map (cell_at c) (rows df)).

(** Every object of [items] binds the field [c] to an integer: the
    integers, object by object. *)
Definition ms_fields (c : string) (items : list (list (string * json)))
           (zs : list Z) : Prop :=
  Forall2 (fun fields z => lookup c fields = Some (JNum z)) items zs.


(** The length of the array a reply holds under a key, if it holds one. *)
Definition nested_array (key : string) (rep : reply) : option (list json) :=
  match rep with
  | Http _ (Text (JObj fields)) =>
      match lookup key fields with
      | Some (JArr entries) => Some entries
      | _ => None
      end
  | _ => None
  end.

(** The requests an operation has added to a run. *)
Definition fetches (op : Op) (batches : list Batch) : list (string * reply) :=
  map (fun b => (url_of op (symbol b), answer b)) batches.

(** The rows of a batch are counted by the array its reply holds under
    [key]: the reply is an object that binds [key], and when the value is
    an array the batch has one row per entry. *)
Definition counted (key : string) (b : Batch) : Prop :=
  exists status fields v,
    answer b = Http status (Text (JObj fields)) /\
    lookup key fields = Some v /\
    forall entries, v = JArr entries ->
      nested_array key (answer b) = Some entries /\
      List.length (rows (table b)) = List.length entries.

(** The table [df] of a run is made of one counted batch per valid
    symbol, in order, each fetched once. *)
Definition counted_batches (op : Op) (key : string) (securities : list string)
           (w : World) (st st' : State) (df : DataFrame) : Prop :=
  exists st1 valid batches,
    return_valid_securities securities w st = (st1, Ok valid) /\
    map symbol batches = valid /\
    requests st' = (requests st1 ++ fetches op batches)%list /\
    rows df = flat_map (fun b => rows (table b)) batches /\
    Forall (counted key) batches.

(** Whenever it is asked for one of the symbols, the server answers
    with a 2xx object that holds an array of objects under [key]. *)
Definition serves_arrays (w : World) (op : Op) (key : string)
           (symbols : list string) : Prop :=
  forall history s, In s symbols ->
    exists status fields entries,
      w history (url_of op s) = Http status (Text (JObj fields)) /\
      is_success status = true /\
      lookup key fields = Some (JArr (map JObj entries)).

(** A sample library, server and run for the examples. *)
Definition sample_lib : Pandas :=
  mkPandas (fun _ => Err ConversionError)
           (fun cells out (H : Err ConversionError = Ok out) =>
              match H in (_ = r)
                    return (match r with
                            | Ok o => List.length o = List.length cells
                            | Err _ => True
                            end)
              with eq_refl => I end)
           (fun c => Ok c).

Definition initial : State := mkState [] [].

Definition ok (doc : json) : reply := Http 200 (Text doc).

Definition sample_routes : list (string * reply) :=
  [ ("https://api.iextrading.com/1.0/ref-data/symbols",
     ok (JArr [ JObj [("symbol", JStr "AAPL"); ("name", JStr "Apple Inc.");
                      ("isEnabled", JBool true)];
                JObj [("symbol", JStr "IBM"); ("name", JStr "IBM Corp.");
                      ("isEnabled", JBool true)] ]));
    ("https://api.iextrading.com/1.0/tops?symbols=AAPL",
     ok (JArr [ JObj [("symbol", JStr "AAPL"); ("bidSize", JNum 100);
                      ("bidPrice", JFloat "149.1");
                      ("lastSaleTime", JNum 1500000000000);
                      ("lastUpdated", JNum 1500000000000)] ]));
    ("https://api.iextrading.com/1.0/tops/last?symbols=AAPL",
     ok (JArr [ JObj [("symbol", JStr "AAPL"); ("price", JFloat "149.1");
                      ("size", JNum 100); ("time", JNum 1500000000000)] ]));
    ("https://api.iextrading.com/1.0/stock/AAPL/news/last/1",
     ok (JArr [ JObj [("datetime", JStr "2017-06-29T13:14:22-04:00");
                      ("headline", JStr "A headline");
                      ("source", JStr "A source");
                      ("url", JStr "https://example.org/article");
                      ("summary", JStr "A summary");
                      ("related", JStr "AAPL")] ]));
    ("https://api.iextrading.com/1.0/stock/AAPL/financials",
     ok (JObj [ ("symbol", JStr "AAPL");
                ("financials",
                 JArr [ JObj [("reportDate", JStr "2017-03-31");
                              ("totalRevenue", JNum 52896000000)];
                        JObj [("reportDate", JStr "2016-12-31");
                              ("totalRevenue", JNum 78351000000)] ]) ]));
    ("https://api.iextrading.com/1.0/stock/AAPL/earnings",
     ok (JObj [ ("symbol", JStr "AAPL");
                ("earnings",
                 JArr [ JObj [("actualEPS", JFloat "2.1");
                              ("fiscalPeriod", JStr "Q2 2017")] ]) ]));
    ("https://api.iextrading.com/1.0/stock/AAPL/chart/1y",
     ok (JArr [ JObj [("date", JStr "2017-07-13"); ("close", JFloat "147.77");
                      ("volume", JNum 25243000)];
                JObj [("date", JStr "2017-07-14"); ("close", JFloat "149.04");
                      ("volume", JNum 20132000)] ])) ].

Definition answer_of (routes : list (string * reply)) (url : string) : reply :=
  match lookup url routes with
  | Some rep => rep
  | None => Http 404 NotJson
  end.

(** A server that answers the sample routes and nothing else. *)
Definition sample_world : World := fun _ url => answer_of sample_routes url.

(** A server whose bars carry an epoch-millisecond field. *)
Definition epoch_chart_world : World := fun _ url =>
  answer_of
    [ ("https://api.iextrading.com/1.0/ref-data/symbols",
       ok (JArr [ JObj [("symbol", JStr "AAPL")] ]));
      ("https://api.iextrading.com/1.0/stock/AAPL/chart/1y",
       ok (JArr [ JObj [("date", JNum 1500000000000);
                        ("close", JFloat "149.04")] ])) ] url.

End Behaviour.
Export Behaviour.

(* ================================================================== *)
(** ** Further vocabulary: addresses and sample servers *)

Module Scenarios.

Local Open Scope string_scope.

(** [s] begins with [p]. *)
Fixpoint starts_with (p s : string) : bool :=
  match p with
  | EmptyString => true
  | String a p' =>
      match s with
      | EmptyString => false
      | String b s' => Ascii.eqb a b && starts_with p' s'
      end
  end.

(** An address under the endpoint the client is configured with. *)
Definition on_endpoint (url : string) : bool :=
  starts_with _end_point_prefix url.

(** The columns an operation reads by name from the table of a reply,
    in the order it reads them. *)
Definition news_texts : list string :=
  ["headline"; "summary"; "source"; "url"; "related"].

(** The GETs an operation sends for a list of targets, each with the
    reply it received. *)
Definition asked (op : Op) (exchanges : list (string * reply))
  : list (string * reply) :=
  map (fun x => (url_of op (fst x), snd x)) exchanges.

(** A target whose reply the operation made a table of. *)
Definition handled (lib : Pandas) (op : Op) (x : string * reply) : Prop :=
  exists d, handler lib op (fst x) (snd x) = Ok d.

(** A server that lists AAPL and answers every other address with an
    empty array. *)
Definition quiet_world : World := fun _ url =>
  if String.eqb url ref_url
  then ok (JArr [ JObj [("symbol", JStr "AAPL")] ])
  else ok (JArr []).

(** A server that lists AAPL and whose news objects have neither a
    summary nor a related field. *)
Definition bare_news_world : World := fun _ url =>
  if String.eqb url ref_url
  then ok (JArr [ JObj [("symbol", JStr "AAPL")] ])
  else ok (JArr [ JObj [("datetime", JStr "2017-06-29T13:14:22-04:00");
                        ("headline", JStr "A headline");
                        ("source", JStr "A source");
                        ("url", JStr "https://example.org/article")] ]).

(** A server whose reference list is the empty array. *)
Definition empty_reference_world : World := fun _ _ => ok (JArr []).

(** A server whose reference list holds an array where a symbol is
    expected. *)
Definition array_symbol_world : World := fun _ _ =>
  ok (JArr [ JObj [("symbol", JArr [JStr "AAPL"])] ]).

(** A server that lists AAPL and IBM and has news for AAPL only: the
    request for IBM fails. *)
Definition half_world : World := fun _ url =>
  if String.eqb url ref_url
  then ok (JArr [ JObj [("symbol", JStr "AAPL")]; JObj [("symbol", JStr "IBM")] ])
  else answer_of sample_routes url.

End Scenarios.
Export Scenarios.

(* ================================================================== *)
(** ** Running the methods *)

Local Open Scope string_scope.
Local Open Scope list_scope.

Lemma bind_run {A B} (m : M A) (f : A -> M B) w st :
  bind m f w st =
  match m w st with
  | (st1, Ok a) => f a w st1
  | (st1, Err e) => (st1, Err e)
  end.
Proof. reflexivity. Qed.

Lemma url_to_dataframe_run url nest w st :
  _url_to_dataframe url nest w st =
  (sent st url (w (requests st) url), frame_of_reply nest (w (requests st) url)).
Proof.
  unfold _url_to_dataframe, bind, urlopen, lift, sent, frame_of_reply.
  destruct (w (requests st) url) as [|status b]; [reflexivity|].
  destruct (is_success status); [|reflexivity].
  destruct b; simpl; [reflexivity|].
  destruct (truthy nest); reflexivity.
Qed.

Lemma gate_run securities w st :
  return_valid_securities securities w st =
  (sent st ref_url (w (requests st) ref_url),
   validate (w (requests st) ref_url) securities).
Proof.
  unfold return_valid_securities.
  rewrite bind_run, url_to_dataframe_run. fold ref_url.
  unfold validate, reference_column.
  destruct (frame_of_reply None (w (requests st) ref_url)) as [df|e];
    [|reflexivity].
  rewrite bind_run. unfold lift. simpl.
  destruct (column df "symbol"); reflexivity.
Qed.

Lemma for_each_ext {A S} (f g : A -> S -> M S) (l : list A) :
  (forall x acc w st, f x acc w st = g x acc w st) ->
  forall acc w st, for_each l f acc w st = for_each l g acc w st.
Proof.
  intros Hfg. induction l as [|x t IH]; intros acc w st; simpl.
  - reflexivity.
  - rewrite !bind_run, Hfg.
    destruct (g x acc w st) as [st1 [a|e]]; [apply IH | reflexivity].
Qed.

Lemma news_turn lib count symbol acc w st :
  (bind (_url_to_dataframe
           (_end_point_prefix ++ ("stock/" ++ symbol ++ "/news/last/" ++ str count))
           None)
     (fun df =>
      bind (lift (rbind (column df "datetime") (rmap (parse_datetime lib))))
        (fun time =>
         bind (lift (del_column (set_column df "time" time) "datetime"))
           (fun df =>
            bind (lift (select (set_scalar df "symbol" (V (JStr symbol)))
                               news_columns))
              (fun df => ret (append acc df)))))) w st
  = turn lib (News count) symbol acc w st.
Proof.
  rewrite bind_run, url_to_dataframe_run.
  unfold turn, handler, shape, tag, nest_of, url_of.
  destruct (frame_of_reply None _) as [df|e]; [|reflexivity].
  unfold bind, lift, ret, rbind.
  destruct (column df "datetime") as [cells|e]; [|reflexivity].
  destruct (rmap (parse_datetime lib) cells) as [time|e]; [|reflexivity].
  destruct (del_column _ _) as [df1|e]; [|reflexivity].
  destruct (select _ _) as [df2|e]; reflexivity.
Qed.

Lemma tag_turn lib op symbol acc w st :
  match op with Financials | Earnings | Bars _ => True | _ => False end ->
  (bind (_url_to_dataframe (url_of op symbol) (nest_of op))
     (fun df => ret (append acc (set_scalar df "symbol" (V (JStr symbol)))))) w st
  = turn lib op symbol acc w st.
Proof.
  intros Hop. rewrite bind_run, url_to_dataframe_run.
  unfold turn, handler.
  destruct (frame_of_reply (nest_of op) _) as [df|e]; [|reflexivity].
  destruct op; try contradiction; reflexivity.
Qed.

(** A per-symbol operation is the validity gate followed by the loop of
    turns. *)
Lemma looped_run lib op securities w st :
  per_symbol op = true ->
  run lib op securities w st =
  match return_valid_securities securities w st with
  | (st1, Ok []) => (said st1 invalid_message, Ok None)
  | (st1, Ok valid) =>
      match for_each valid (turn lib op) empty_frame w st1 with
      | (st', Ok d) => (st', Ok (Some d))
      | (st', Err e) => (st', Err e)
      end
  | (st1, Err e) => (st1, Err e)
  end.
Proof.
  intros Hop.
  destruct op; try discriminate Hop; simpl run;
    [ unfold get_latest_news | unfold get_financials | unfold get_earnings
    | unfold get_trade_bars_data ];
    rewrite bind_run;
    destruct (return_valid_securities securities w st) as [st1 [valid|e]];
    try reflexivity;
    (destruct valid as [|s t]; [reflexivity|]);
    rewrite bind_run.
  - rewrite (for_each_ext _ (turn lib (News count)) (s :: t)
               (fun x acc w st => news_turn lib count x acc w st)).
    destruct (for_each _ _ _ _ _) as [st' [d|e]]; reflexivity.
  - rewrite (for_each_ext _ (turn lib Financials) (s :: t)
               (fun x acc w st => tag_turn lib Financials x acc w st I)).
    destruct (for_each _ _ _ _ _) as [st' [d|e]]; reflexivity.
  - rewrite (for_each_ext _ (turn lib Earnings) (s :: t)
               (fun x acc w st => tag_turn lib Earnings x acc w st I)).
    destruct (for_each _ _ _ _ _) as [st' [d|e]]; reflexivity.
  - rewrite (for_each_ext _ (turn lib (Bars bucket)) (s :: t)
               (fun x acc w st => tag_turn lib (Bars bucket) x acc w st I)).
    destruct (for_each _ _ _ _ _) as [st' [d|e]]; reflexivity.
Qed.

(** The two batched operations are the gate followed by one request. *)
Lemma batched_run lib op securities w st :
  per_symbol op = false ->
  run lib op securities w st =
  match return_valid_securities securities w st with
  | (st1, Ok []) => (said st1 invalid_message, Ok None)
  | (st1, Ok valid) =>
      let url := url_of op (String.concat "," valid) in
      let rep := w (requests st1) url in
      (sent st1 url rep,
       rbind (handler lib op (String.concat "," valid) rep)
             (fun d => Ok (Some d)))
  | (st1, Err e) => (st1, Err e)
  end.
Proof.
  intros Hop.
  destruct op; try discriminate Hop; simpl run;
    [ unfold get_latest_quote_and_trade | unfold get_latest_trade ];
    rewrite bind_run;
    destruct (return_valid_securities securities w st) as [st1 [valid|e]];
    try reflexivity;
    (destruct valid as [|s t]; [reflexivity|]);
    rewrite bind_run, url_to_dataframe_run;
    cbv zeta; unfold handler, shape, decode_ms, nest_of, url_of;
    (destruct (frame_of_reply None _) as [df|e]; [|reflexivity]);
    unfold bind, lift, ret, rbind.
  - destruct (column df "lastSaleTime") as [c1|e]; [|reflexivity].
    destruct (to_datetime_ms lib c1) as [sale|e]; [|reflexivity].
    destruct (column (set_column df "lastSaleTime" sale) "lastUpdated")
      as [c2|e]; [|reflexivity].
    destruct (to_datetime_ms lib c2) as [updated|e]; [|reflexivity].
    destruct (set_index _ _); reflexivity.
  - destruct (column df "time") as [c1|e]; [|reflexivity].
    destruct (to_datetime_ms lib c1) as [time|e]; [|reflexivity].
    destruct (set_index _ _); reflexivity.
Qed.

(** The loop of turns follows the relation [Loop] and folds the tables
    into the accumulator. *)
Lemma for_each_loop lib op w ts :
  forall acc st st' r,
    for_each ts (turn lib op) acc w st = (st', r) ->
    exists rb,
      Loop lib op w ts st st' rb /\
      r = rbind rb (fun bs => Ok (fold_left append (map table bs) acc)).
Proof.
  induction ts as [|t ts IH]; intros acc st st' r Hrun; simpl in Hrun.
  - injection Hrun as <- <-. exists (Ok []). split; [constructor | reflexivity].
  - rewrite bind_run in Hrun. unfold turn at 1 in Hrun.
    destruct (handler lib op t (w (requests st) (url_of op t))) as [d|e] eqn:Hd;
      simpl in Hrun.
    + apply IH in Hrun as (rb & Hloop & ->).
      eexists. split; [eapply Loop_next; eassumption|].
      destruct rb; reflexivity.
    + injection Hrun as <- <-. exists (Err e).
      split; [apply Loop_raise; assumption | reflexivity].
Qed.

(** Every call of a public operation ends in one of the four ways of
    [Outcome]. *)
Lemma run_outcome lib op securities w st st' r :
  run lib op securities w st = (st', r) ->
  Outcome lib op w securities st st' r.
Proof.
  intros Hrun. destruct (per_symbol op) eqn:Hop.
  - rewrite looped_run in Hrun by assumption.
    destruct (return_valid_securities securities w st) as [st1 [valid|e]] eqn:Hg.
    + destruct valid as [|s t].
      * injection Hrun as <- <-. apply none_valid; assumption.
      * destruct (for_each (s :: t) (turn lib op) empty_frame w st1)
          as [st2 rd] eqn:Hloop.
        apply for_each_loop in Hloop as (rb & Hloop & ->).
        destruct rb as [bs|e]; simpl in Hrun; injection Hrun as <- <-.
        -- replace (fold_left append (map table bs) empty_frame)
             with (assemble op (map table bs))
             by (unfold assemble; rewrite Hop; reflexivity).
           eapply tables_returned; try eassumption; [discriminate|].
           unfold targets; rewrite Hop; assumption.
        -- eapply handling_raises; try eassumption; [discriminate|].
           unfold targets; rewrite Hop; assumption.
    + injection Hrun as <- <-. apply validation_raises; assumption.
  - rewrite batched_run in Hrun by assumption.
    destruct (return_valid_securities securities w st) as [st1 [valid|e]] eqn:Hg.
    + destruct valid as [|s t].
      * injection Hrun as <- <-. apply none_valid; assumption.
      * cbv zeta in Hrun.
        destruct (handler lib op _ _) as [d|e] eqn:Hd; simpl in Hrun;
          injection Hrun as <- <-.
        -- replace d with
             (assemble op (map table
                [mkBatch (String.concat "," (s :: t))
                   (w (requests st1) (url_of op (String.concat "," (s :: t)))) d]))
             by (unfold assemble; rewrite Hop; reflexivity).
           eapply tables_returned; try eassumption; [discriminate|].
           unfold targets; rewrite Hop.
           apply (Loop_next lib op w _ [] st1 d _ (Ok [])); [assumption|].
           constructor.
        -- eapply handling_raises; try eassumption; [discriminate|].
           unfold targets; rewrite Hop.
           apply Loop_raise; assumption.
    + injection Hrun as <- <-. apply validation_raises; assumption.
Qed.

(* ================================================================== *)
(** ** Facts about timestamps *)

(** The time of day of a decoded timestamp is in range, and with the day
    number it gives back the milliseconds decoded. *)
Lemma of_epoch_ms_time_of_day ms :
  let t := of_epoch_ms ms in
  0 <= hour t < 24 /\ 0 <= minute t < 60 /\ 0 <= second t < 60 /\
  0 <= millisecond t < 1000 /\
  ms = (ms / ms_per_day) * ms_per_day
       + hour t * 3600000 + minute t * 60000 + second t * 1000 + millisecond t.
Proof.
  unfold of_epoch_ms, ms_per_day.
  destruct (civil_from_days (ms / 86400000)) as [[y m] d]. simpl.
  set (r := ms mod 86400000).
  assert (Hr : 0 <= r < 86400000) by (apply Z.mod_pos_bound; lia).
  assert (Hms : ms = (ms / 86400000) * 86400000 + r)
    by (unfold r; rewrite Z.mul_comm; apply Z.div_mod; lia).
  assert (H1 : r = 1000 * (r / 1000) + r mod 1000) by (apply Z.div_mod; lia).
  assert (H2 : r / 1000 = 60 * (r / 1000 / 60) + (r / 1000) mod 60)
    by (apply Z.div_mod; lia).
  assert (H3 : r / 60000 = 60 * (r / 60000 / 60) + (r / 60000) mod 60)
    by (apply Z.div_mod; lia).
  rewrite Z.div_div in H2 by lia. rewrite Z.div_div in H3 by lia.
  change (1000 * 60) with 60000 in H2. change (60000 * 60) with 3600000 in H3.
  pose proof (Z.mod_pos_bound r 1000 ltac:(lia)).
  pose proof (Z.mod_pos_bound (r / 1000) 60 ltac:(lia)).
  pose proof (Z.mod_pos_bound (r / 60000) 60 ltac:(lia)).
  assert (0 <= r / 3600000 < 24)
    by (split; [apply Z.div_pos; lia | apply Z.div_lt_upper_bound; lia]).
  lia.
Qed.

(* ================================================================== *)
(** ** Facts about the loop *)

Section LoopFacts.

Context (lib : Pandas) (op : Op) (w : World).

Lemma loop_grows ts st st' r :
  Loop lib op w ts st st' r ->
  exists new, requests st' = requests st ++ new /\ stdout st' = stdout st.
Proof.
  induction 1 as [st | t ts st e _ | t ts st d st' r _ _ IH].
  - exists []. rewrite app_nil_r. split; reflexivity.
  - eexists. split; reflexivity.
  - destruct IH as (new & Hreq & Hout). simpl in Hreq, Hout.
    exists ((url_of op t, w (requests st) (url_of op t)) :: new).
    rewrite Hreq, <- app_assoc. split; [reflexivity | assumption].
Qed.

(** A loop that ends normally has fetched every target once, in order. *)
Lemma loop_ok ts st st' r :
  Loop lib op w ts st st' r ->
  forall bs, r = Ok bs ->
    map symbol bs = ts /\
    requests st' = requests st ++ fetches op bs /\
    stdout st' = stdout st /\
    Forall (fun b => handler lib op (symbol b) (answer b) = Ok (table b)) bs.
Proof.
  induction 1 as [st | t ts st e _ | t ts st d st' r Hd _ IH]; intros bs Hr.
  - injection Hr as <-. simpl. rewrite app_nil_r. repeat split. constructor.
  - discriminate Hr.
  - destruct r as [bs0|e]; [|discriminate Hr]. injection Hr as <-.
    destruct (IH bs0 eq_refl) as (Hsym & Hreq & Hout & Hall).
    simpl in Hreq, Hout. simpl. repeat split.
    + f_equal. assumption.
    + rewrite Hreq, <- app_assoc. reflexivity.
    + assumption.
    + constructor; assumption.
Qed.

End LoopFacts.

Lemma rows_fold_append (ds : list DataFrame) :
  forall acc, rows (fold_left append ds acc) = rows acc ++ flat_map rows ds.
Proof.
  induction ds as [|d ds IH]; intros acc; simpl.
  - rewrite app_nil_r. reflexivity.
  - rewrite IH. simpl. rewrite <- app_assoc. reflexivity.
Qed.

Lemma flat_map_table (bs : list Batch) :
  flat_map rows (map table bs) = flat_map (fun b => rows (table b)) bs.
Proof.
  induction bs as [|b bs IH]; simpl; [reflexivity | rewrite IH; reflexivity].
Qed.

(** What a per-symbol operation returns: the tables of the valid symbols,
    one after the other. *)
Lemma looped_tables lib op securities w st st' df :
  per_symbol op = true ->
  run lib op securities w st = (st', Ok (Some df)) ->
  exists st1 valid batches,
    return_valid_securities securities w st = (st1, Ok valid) /\
    valid <> [] /\
    map symbol batches = valid /\
    requests st' = requests st1 ++ fetches op batches /\
    stdout st' = stdout st1 /\
    Forall (fun b => handler lib op (symbol b) (answer b) = Ok (table b)) batches /\
    df = fold_left append (map table batches) empty_frame /\
    rows df = flat_map (fun b => rows (table b)) batches.
Proof.
  intros Hop Hrun. apply run_outcome in Hrun.
  inversion Hrun as [| | | st1 valid st2 batches Hgate Hne Hloop]; subst.
  unfold targets in Hloop. rewrite Hop in Hloop.
  destruct (loop_ok _ _ _ _ _ _ _ Hloop batches eq_refl)
    as (Hsym & Hreq & Hout & Hall).
  exists st1, valid, batches.
  unfold assemble. rewrite Hop.
  repeat split; try assumption.
  rewrite rows_fold_append, flat_map_table. reflexivity.
Qed.

(* ================================================================== *)
(** ** Facts about tables *)

Lemma lookup_set_binding {A} k (v : A) d :
  lookup k (set_binding k v d) = Some v.
Proof.
  induction d as [|[k' v'] t IH]; simpl.
  - rewrite String.eqb_refl. reflexivity.
  - destruct (String.eqb k k') eqn:E; simpl.
    + rewrite String.eqb_refl. reflexivity.
    + rewrite E. assumption.
Qed.

Lemma lookup_set_binding_other {A} k c (v : A) d :
  c <> k -> lookup c (set_binding k v d) = lookup c d.
Proof.
  intros Hne. apply String.eqb_neq in Hne.
  induction d as [|[k' v'] t IH]; simpl.
  - rewrite Hne. reflexivity.
  - destruct (String.eqb k k') eqn:E; simpl.
    + apply String.eqb_eq in E. subst k'. rewrite Hne. reflexivity.
    + rewrite IH. reflexivity.
Qed.

Lemma tag_rows s df : rows (tag s df) = map (set_binding "symbol" (V (JStr s))) (rows df).
Proof. reflexivity. Qed.

Lemma tag_tagged s df : Forall (tagged s) (rows (tag s df)).
Proof.
  rewrite tag_rows. apply Forall_forall. intros r Hr.
  apply in_map_iff in Hr as (r0 & <- & _).
  unfold tagged, cell_at. rewrite lookup_set_binding. reflexivity.
Qed.

Lemma select_rows df cs d :
  select df cs = Ok d ->
  columns d = cs /\
  rows d = map (fun r => map (fun c => (c, cell_at c r)) cs) (rows df).
Proof.
  unfold select. destruct (missing_labels cs (columns df)); [|discriminate].
  intros H. injection H as <-. split; reflexivity.
Qed.

(** The table of one target of a per-symbol operation is tagged with the
    target on every row. *)
Lemma handler_tagged lib op s rep d :
  per_symbol op = true ->
  handler lib op s rep = Ok d ->
  Forall (tagged s) (rows d).
Proof.
  intros Hop. unfold handler.
  destruct (frame_of_reply (nest_of op) rep) as [df|e]; [simpl|discriminate].
  destruct op; try discriminate Hop; simpl;
    try (intros H; injection H as <-; apply tag_tagged).
  destruct (rbind (column df "datetime") _) as [time|e]; [simpl|discriminate].
  destruct (del_column _ _) as [df1|e]; [simpl|discriminate].
  intros Hsel. apply select_rows in Hsel as [_ Hrows].
  rewrite Hrows. apply Forall_forall. intros r Hr.
  apply in_map_iff in Hr as (r0 & <- & Hr0).
  pose proof (tag_tagged s df1) as Htag.
  rewrite Forall_forall in Htag. specialize (Htag r0 Hr0).
  unfold tagged in *. unfold cell_at at 1. simpl. assumption.
Qed.

(* ================================================================== *)
(** ** Facts about flattening *)

(** Induction on a document, with the hypothesis for every item of an
    array and every value of an object. *)
Lemma json_nested_ind (P : json -> Prop) :
  P JNull ->
  (forall b, P (JBool b)) ->
  (forall z, P (JNum z)) ->
  (forall l, P (JFloat l)) ->
  (forall s, P (JStr s)) ->
  (forall items, Forall P items -> P (JArr items)) ->
  (forall fields, Forall (fun kv => P (snd kv)) fields -> P (JObj fields)) ->
  forall j, P j.
Proof.
  intros Hnull Hbool Hnum Hfloat Hstr Harr Hobj.
  refine (fix IH (j : json) : P j :=
            match j with
            | JNull => Hnull
            | JBool b => Hbool b
            | JNum z => Hnum z
            | JFloat l => Hfloat l
            | JStr s => Hstr s
            | JArr items =>
                Harr items
                  ((fix all (l : list json) : Forall P l :=
                      match l with
                      | [] => Forall_nil _
                      | x :: t => Forall_cons x (IH x) (all t)
                      end) items)
            | JObj fields =>
                Hobj fields
                  ((fix all (l : list (string * json))
                      : Forall (fun kv => P (snd kv)) l :=
                      match l with
                      | [] => Forall_nil _
                      | kv :: t => Forall_cons kv (IH (snd kv)) (all t)
                      end) fields)
            end).
Qed.

Lemma has_dot_compound a b : has_dot (a ++ "." ++ b)%string = true.
Proof.
  induction a as [|c a IH]; simpl in *.
  - reflexivity.
  - rewrite IH. apply orb_true_r.
Qed.

(** The leaves of a nested dict all get a compound name. *)
Lemma flatten_value_names v :
  forall name k x,
    In (k, x) (flatten_value name v) ->
    (k = name /\ x = v /\ is_obj v = false) \/ has_dot k = true.
Proof.
  induction v as [ | b | z | l | s | items _ | fields IH] using json_nested_ind;
    intros name k x Hin;
    try (left; destruct Hin as [H|[]]; injection H as <- <-; repeat split).
  right. simpl in Hin.
  induction fields as [|[k1 x1] t IHt].
  - destruct Hin.
  - apply Forall_cons_iff in IH as [IH1 IHrest]. simpl in IH1.
    apply in_app_or in Hin as [Hin|Hin].
    + apply IH1 in Hin as [(-> & _ & _)|Hdot].
      * apply has_dot_compound.
      * assumption.
    + apply IHt; assumption.
Qed.

Lemma lookup_in {A} k (v : A) d : lookup k d = Some v -> In (k, v) d.
Proof.
  induction d as [|[k' v'] t IH]; simpl; [discriminate|].
  destruct (String.eqb k k') eqn:E.
  - apply String.eqb_eq in E. subst k'. intros H. injection H as <-. left; reflexivity.
  - intros H. right. apply IH. assumption.
Qed.

(** A column with a plain name holds a value the record binds to that
    very name. *)
Lemma nested_to_record_plain d k x :
  has_dot k = false ->
  In (k, x) (nested_to_record d) -> In (k, x) d.
Proof.
  intros Hk Hin. unfold nested_to_record in Hin.
  apply in_app_or in Hin as [Hin|Hin].
  - apply filter_In in Hin. apply Hin.
  - apply in_flat_map in Hin as ([k0 v0] & Hkept & Hin). simpl in Hin.
    apply filter_In in Hkept as [_ Hkept]. simpl in Hkept.
    apply flatten_value_names in Hin as [(_ & _ & Hobj)|Hdot]; congruence.
Qed.

(* ================================================================== *)
(** ** The validity gate *)

Lemma comprehension_filter securities cells out :
  comprehension securities cells = Ok out ->
  out = filter (listed cells) securities.
Proof.
  revert out. induction securities as [|x t IH]; intros out; simpl.
  - intros H. injection H as <-. reflexivity.
  - unfold py_set. destruct (forallb hashable cells); [simpl|discriminate].
    destruct (comprehension t cells) as [rest|e]; [simpl|discriminate].
    intros H. injection H as <-. rewrite (IH rest eq_refl).
    change (existsb (is_symbol x) cells) with (listed cells x).
    destruct (listed cells x); reflexivity.
Qed.

Lemma comprehension_total securities cells :
  forallb hashable cells = true ->
  comprehension securities cells = Ok (filter (listed cells) securities).
Proof.
  intros Hh. induction securities as [|x t IH]; simpl; [reflexivity|].
  unfold py_set. rewrite Hh. simpl. rewrite IH. simpl.
  change (existsb (is_symbol x) cells) with (listed cells x).
  destruct (listed cells x); reflexivity.
Qed.

Lemma filter_subsequence {A} (f : A -> bool) l : Subsequence (filter f l) l.
Proof.
  induction l as [|x t IH]; simpl.
  - constructor.
  - destruct (f x); constructor; assumption.
Qed.

Lemma listed_in cells x : listed cells x = true -> In (V (JStr x)) cells.
Proof.
  unfold listed. intros H. apply existsb_exists in H as (c & Hc & Hx).
  destruct c as [| |j|]; try discriminate Hx.
  destruct j; try discriminate Hx.
  apply String.eqb_eq in Hx. subst. assumption.
Qed.

Lemma rmap_as_record items ds :
  rmap as_record items = Ok ds -> records (JArr items) = ds.
Proof.
  revert ds. induction items as [|j t IH]; intros ds; simpl.
  - intros H. injection H as <-. reflexivity.
  - destruct j; try discriminate. simpl.
    destruct (rmap as_record t) as [ds'|e]; [simpl|discriminate].
    intros H. injection H as <-. f_equal. apply IH. reflexivity.
Qed.

(** The rows of a normalised document are its records, flattened. *)
Lemma json_normalize_rows doc df :
  json_normalize doc = Ok df -> rows df = map row_of_record (records doc).
Proof.
  destruct doc as [ | | | | | items | fields]; try discriminate; simpl.
  - destruct items as [|j t].
    + intros H. injection H as <-. reflexivity.
    + destruct (rmap as_record (j :: t)) as [ds|e] eqn:E; [simpl|discriminate].
      intros H. injection H as <-. apply rmap_as_record in E.
      simpl in E. simpl. rewrite E. reflexivity.
  - intros H. injection H as <-. reflexivity.
Qed.

Lemma frame_of_reply_plain rep df :
  frame_of_reply None rep = Ok df ->
  exists status doc,
    rep = Http status (Text doc) /\ is_success status = true /\
    json_normalize doc = Ok df.
Proof.
  destruct rep as [|status [|doc]]; unfold frame_of_reply; try discriminate;
    destruct (is_success status) eqn:Hs; try discriminate.
  intros H. exists status, doc. split; [reflexivity|]. split; assumption.
Qed.

Lemma column_cells df c cells :
  column df c = Ok cells -> cells = map (cell_at c) (rows df).
Proof.
  unfold column. destruct (has_column c (columns df)); [|discriminate].
  intros H. injection H as <-. reflexivity.
Qed.

Lemma row_of_record_in fields k j :
  cell_at k (row_of_record fields) = V j -> In (k, j) (nested_to_record fields).
Proof.
  unfold cell_at, row_of_record.
  induction (nested_to_record fields) as [|[k' v'] t IH]; simpl; [discriminate|].
  destruct (String.eqb k k') eqn:E.
  - apply String.eqb_eq in E. subst k'. intros H. injection H as <-.
    left; reflexivity.
  - intros H. right. apply IH. assumption.
Qed.

(** A symbol cell of the reference table is a symbol of one of the
    objects the server sent. *)
Lemma reference_column_listed rep cells s :
  reference_column rep = Ok cells ->
  In (V (JStr s)) cells ->
  in_reference_list rep s.
Proof.
  unfold reference_column.
  destruct (frame_of_reply None rep) as [df|e] eqn:Hdf; [simpl|discriminate].
  intros Hcol Hin.
  apply frame_of_reply_plain in Hdf as (status & doc & -> & _ & Hnorm).
  apply column_cells in Hcol. subst cells.
  rewrite (json_normalize_rows _ _ Hnorm), map_map in Hin.
  apply in_map_iff in Hin as (fields & Hcell & Hfields).
  exists status, doc, fields. repeat split; [assumption|].
  apply nested_to_record_plain; [reflexivity|].
  apply row_of_record_in. assumption.
Qed.

Lemma gate_result securities w st st' r :
  return_valid_securities securities w st = (st', r) ->
  st' = sent st ref_url (w (requests st) ref_url) /\
  r = validate (w (requests st) ref_url) securities.
Proof.
  rewrite gate_run. intros H. injection H as <- <-. split; reflexivity.
Qed.

Lemma validate_filter rep securities out :
  validate rep securities = Ok out ->
  exists cells,
    reference_column rep = Ok cells /\ out = filter (listed cells) securities.
Proof.
  unfold validate. destruct (reference_column rep) as [cells|e];
    [simpl|discriminate].
  intros H. exists cells. split; [reflexivity|].
  apply comprehension_filter. assumption.
Qed.

Lemma gate_members securities w st st' out :
  return_valid_securities securities w st = (st', Ok out) ->
  forall s, In s out ->
    In s securities /\ in_reference_list (w (requests st) ref_url) s.
Proof.
  intros Hrun. apply gate_result in Hrun as [_ Hval]. symmetry in Hval.
  apply validate_filter in Hval as (cells & Hcol & ->).
  intros s Hs. apply filter_In in Hs as [Hin Hs]. split; [assumption|].
  eapply reference_column_listed; [eassumption|].
  apply listed_in. assumption.
Qed.

(** C1.  Whatever the input list and the server, the list that
    [return_valid_securities] returns keeps some of the requested symbols
    in the caller's order, and every symbol in it is the [symbol] of an
    object of the reference list the server sent. *)
Theorem valid_securities_sound securities w st st' out :
  return_valid_securities securities w st = (st', Ok out) ->
  Subsequence out securities /\
  (forall s, In s out -> In s securities) /\
  (forall s, In s out -> in_reference_list (w (requests st) ref_url) s).
Proof.
  intros Hrun. split.
  - apply gate_result in Hrun as [_ Hval]. symmetry in Hval.
    apply validate_filter in Hval as (cells & _ & ->).
    apply filter_subsequence.
  - split; intros s Hs; apply (gate_members _ _ _ _ _ Hrun s Hs).
Qed.

(** C9.  The returned list is the membership filter of the input: a
    symbol of the reference column occurs in the output as often as in the
    input, any other symbol not at all. *)
Theorem valid_securities_filter securities w st st' out :
  return_valid_securities securities w st = (st', Ok out) ->
  exists cells,
    reference_column (w (requests st) ref_url) = Ok cells /\
    out = filter (listed cells) securities /\
    forall s,
      count_occ string_dec out s =
      if listed cells s then count_occ string_dec securities s else 0%nat.
Proof.
  intros Hrun. apply gate_result in Hrun as [_ Hval]. symmetry in Hval.
  apply validate_filter in Hval as (cells & Hcol & ->).
  exists cells. split; [assumption|]. split; [reflexivity|].
  intros s. induction securities as [|x t IH]; simpl.
  - destruct (listed cells s); reflexivity.
  - destruct (listed cells x) eqn:Hx; simpl.
    + destruct (string_dec x s) as [->|Hne].
      * rewrite IH, Hx. reflexivity.
      * rewrite IH. reflexivity.
    + destruct (string_dec x s) as [->|Hne].
      * rewrite IH, Hx. reflexivity.
      * rewrite IH. reflexivity.
Qed.

(* ================================================================== *)
(** ** Failures of the transport *)

Lemma transport_failure_frame nest rep e :
  transport_failure rep = Some e -> frame_of_reply nest rep = Err e.
Proof.
  destruct rep as [|status [|doc]]; simpl;
    try (destruct (is_success status)); simpl;
    intros H; try discriminate H; injection H as <-; reflexivity.
Qed.

Lemma transport_failure_validate rep securities e :
  transport_failure rep = Some e -> validate rep securities = Err e.
Proof.
  intros H. unfold validate, reference_column.
  rewrite (transport_failure_frame None rep e H). reflexivity.
Qed.

Lemma transport_failure_handler lib op t rep e :
  transport_failure rep = Some e -> handler lib op t rep = Err e.
Proof.
  intros H. unfold handler.
  rewrite (transport_failure_frame _ rep e H). reflexivity.
Qed.

Lemma single_split {A} (x y : A) pre post :
  [x] = pre ++ y :: post -> pre = [] /\ post = [] /\ x = y.
Proof.
  destruct pre as [|p pre]; simpl; intros H.
  - injection H as -> <-. repeat split.
  - injection H as _ H. destruct pre; discriminate H.
Qed.

(** In a loop, a reply that is a transport failure is the last one
    fetched, and its exception is the loop's. *)
Lemma loop_transport lib op w ts st st' r :
  Loop lib op w ts st st' r ->
  forall pre url rep post e,
    requests st' = requests st ++ pre ++ (url, rep) :: post ->
    transport_failure rep = Some e ->
    post = [] /\ r = Err e.
Proof.
  induction 1 as [st | t ts st e0 He0 | t ts st d st' r Hd Hloop IH];
    intros pre url rep post e Hreq Hfail.
  - exfalso. rewrite <- (app_nil_r (requests st)) in Hreq at 1.
    apply app_inv_head in Hreq. destruct pre; discriminate Hreq.
  - simpl in Hreq. apply app_inv_head in Hreq.
    apply single_split in Hreq as (_ & -> & Heq). injection Heq as <- <-.
    rewrite (transport_failure_handler _ _ _ _ _ Hfail) in He0.
    injection He0 as ->. split; reflexivity.
  - destruct (loop_grows _ _ _ _ _ _ _ Hloop) as (new & Hnew & _).
    simpl in Hnew. rewrite Hnew, <- app_assoc in Hreq.
    apply app_inv_head in Hreq. simpl in Hreq.
    destruct pre as [|p pre]; simpl in Hreq.
    + injection Hreq as Hurl Hrep _. subst rep.
      rewrite (transport_failure_handler _ _ _ _ _ Hfail) in Hd. discriminate Hd.
    + injection Hreq as _ Hreq. subst new.
      destruct (IH pre url rep post e) as [-> ->]; [|assumption|].
      * simpl. rewrite Hnew, <- app_assoc. reflexivity.
      * split; reflexivity.
Qed.

(** The same for a whole call: the reference fetch included. *)
Lemma outcome_transport lib op w securities st st' r :
  Outcome lib op w securities st st' r ->
  forall pre url rep post e,
    requests st' = requests st ++ pre ++ (url, rep) :: post ->
    transport_failure rep = Some e ->
    post = [] /\ r = Err e.
Proof.
  assert (Hfirst : forall st1 new res pre url rep post e,
    st1 = sent st ref_url (w (requests st) ref_url) ->
    res = validate (w (requests st) ref_url) securities ->
    requests st1 ++ new = requests st ++ pre ++ (url, rep) :: post ->
    transport_failure rep = Some e ->
    (pre = [] /\ res = Err e /\ new = post) \/
    (exists pre', pre = (ref_url, w (requests st) ref_url) :: pre' /\
                  new = pre' ++ (url, rep) :: post)).
  { intros st1 new res pre url rep post e -> -> Hreq Hfail.
    simpl in Hreq. rewrite <- app_assoc in Hreq.
    apply app_inv_head in Hreq. simpl in Hreq.
    destruct pre as [|p pre]; simpl in Hreq.
    - left. injection Hreq as _ <- <-.
      rewrite (transport_failure_validate _ _ _ Hfail). repeat split.
    - right. injection Hreq as <- ->. exists pre. split; reflexivity. }
  intros Hout pre url rep post e Hreq Hfail.
  destruct Hout as [st1 e0 Hg | st1 Hg | st1 valid st' e0 Hg Hne Hloop
                   | st1 valid st' batches Hg Hne Hloop];
    apply gate_result in Hg as [Hst1 Hres].
  - rewrite <- (app_nil_r (requests st1)) in Hreq.
    destruct (Hfirst st1 [] _ pre url rep post e Hst1 Hres Hreq Hfail)
      as [(_ & He & <-) | (pre' & _ & Hnil)].
    + injection He as ->. split; reflexivity.
    + destruct pre'; discriminate Hnil.
  - simpl in Hreq. rewrite <- (app_nil_r (requests st1)) in Hreq.
    destruct (Hfirst st1 [] _ pre url rep post e Hst1 Hres Hreq Hfail)
      as [(_ & He & _) | (pre' & _ & Hnil)].
    + discriminate He.
    + destruct pre'; discriminate Hnil.
  - destruct (loop_grows _ _ _ _ _ _ _ Hloop) as (new & Hnew & _).
    rewrite Hnew in Hreq.
    destruct (Hfirst st1 new _ pre url rep post e Hst1 Hres Hreq Hfail)
      as [(_ & He & _) | (pre' & _ & Hsplit)].
    + discriminate He.
    + subst new.
      destruct (loop_transport _ _ _ _ _ _ _ Hloop _ _ _ _ _ Hnew Hfail)
        as [-> He].
      injection He as ->. split; reflexivity.
  - destruct (loop_grows _ _ _ _ _ _ _ Hloop) as (new & Hnew & _).
    rewrite Hnew in Hreq.
    destruct (Hfirst st1 new _ pre url rep post e Hst1 Hres Hreq Hfail)
      as [(_ & He & _) | (pre' & _ & Hsplit)].
    + discriminate He.
    + subst new.
      destruct (loop_transport _ _ _ _ _ _ _ Hloop _ _ _ _ _ Hnew Hfail)
        as [_ Habs].
      discriminate Habs.
Qed.

(* ================================================================== *)
(** ** Properties of the validity gate *)

(** C10.  [return_valid_securities] fetches the reference list before it
    looks at its input: for every input, the empty list too, the run
    grows by exactly one GET of the reference address, nothing is
    printed, and a transport failure of that GET is the outcome.  Nothing
    is remembered: a second call fetches again. *)
Theorem reference_fetch_every_time securities w st :
  fst (return_valid_securities securities w st)
    = sent st ref_url (w (requests st) ref_url) /\
  fst (return_valid_securities [] w st)
    = sent st ref_url (w (requests st) ref_url) /\
  (forall e, transport_failure (w (requests st) ref_url) = Some e ->
     snd (return_valid_securities securities w st) = Err e /\
     snd (return_valid_securities [] w st) = Err e) /\
  (forall again,
     let st1 := fst (return_valid_securities securities w st) in
     requests (fst (return_valid_securities again w st1))
       = requests st ++ [(ref_url, w (requests st) ref_url);
                          (ref_url, w (requests st1) ref_url)]).
Proof.
  rewrite !gate_run. simpl fst. simpl snd.
  split; [reflexivity|]. split; [reflexivity|]. split.
  - intros e He. rewrite !(transport_failure_validate _ _ _ He).
    split; reflexivity.
  - intros again. cbv zeta. rewrite gate_run. simpl.
    rewrite <- app_assoc. reflexivity.
Qed.

Lemma reference_fetch_every_time_witness :
  snd (return_valid_securities [] (fun _ _ => Unreachable) initial)
    = Err URLError.
Proof.
  apply (reference_fetch_every_time [] (fun _ _ => Unreachable) initial).
  reflexivity.
Defined.

Lemma valid_securities_sound_witness :
  Subsequence ["AAPL"; "AAPL"] ["AAPL"; "MSFT"; "AAPL"] /\
  (forall s, In s ["AAPL"; "AAPL"] -> In s ["AAPL"; "MSFT"; "AAPL"]) /\
  (forall s, In s ["AAPL"; "AAPL"] ->
     in_reference_list (sample_world (requests initial) ref_url) s).
Proof.
  apply (valid_securities_sound ["AAPL"; "MSFT"; "AAPL"] sample_world initial
           (sent initial ref_url (sample_world [] ref_url))).
  vm_compute. reflexivity.
Defined.

Lemma valid_securities_filter_witness :
  exists cells,
    reference_column (sample_world (requests initial) ref_url) = Ok cells /\
    ["AAPL"; "AAPL"] = filter (listed cells) ["AAPL"; "MSFT"; "AAPL"] /\
    forall s,
      count_occ string_dec ["AAPL"; "AAPL"] s =
      if listed cells s
      then count_occ string_dec ["AAPL"; "MSFT"; "AAPL"] s else 0%nat.
Proof.
  apply (valid_securities_filter ["AAPL"; "MSFT"; "AAPL"] sample_world initial
           (sent initial ref_url (sample_world [] ref_url))).
  vm_compute. reflexivity.
Defined.

(* ================================================================== *)
(** ** Properties of invalid symbols and failures *)



Lemma missing_nested_key lib op t status fields key :
  nest_of op = Some key ->
  is_success status = true ->
  lookup key fields = None ->
  handler lib op t (Http status (Text (JObj fields))) = Err (KeyError key).
Proof.
  intros Hnest Hs Hkey.
  destruct op; try discriminate Hnest; injection Hnest as <-;
    unfold handler, frame_of_reply; rewrite Hs; simpl;
    rewrite Hkey; reflexivity.
Qed.

(** C8.  A call of any of the six operations ends in one of the four
    ways of [Outcome]: an exception raised while validating or while
    handling a reply is the outcome of the call, and the next request is
    never sent.  In particular a reply that is a transport failure
    (no response, a status outside 2xx, a body that is not JSON) is the
    last request of the run and its exception is the outcome; a reply
    that lacks the nested key the operation reads raises [KeyError]; the
    call returns without a table only when validation returned the empty
    list, and only then is anything printed. *)
Theorem failures_propagate lib op securities w st st' r :
  run lib op securities w st = (st', r) ->
  Outcome lib op w securities st st' r /\
  (forall pre url rep post e,
     requests st' = requests st ++ pre ++ (url, rep) :: post ->
     transport_failure rep = Some e ->
     post = [] /\ r = Err e) /\
  (forall t status fields key,
     nest_of op = Some key -> is_success status = true ->
     lookup key fields = None ->
     handler lib op t (Http status (Text (JObj fields))) = Err (KeyError key)) /\
  (r = Ok None ->
     exists st1,
       return_valid_securities securities w st = (st1, Ok []) /\
       st' = said st1 invalid_message) /\
  (stdout st' <> stdout st -> r = Ok None).
Proof.
  intros Hrun. pose proof (run_outcome _ _ _ _ _ _ _ Hrun) as Hout.
  split; [assumption|]. split; [apply (outcome_transport _ _ _ _ _ _ _ Hout)|].
  split; [apply missing_nested_key|]. split.
  - intros ->. inversion Hout as [| st1 Hg | |]; subst.
    exists st1. split; [assumption | reflexivity].
  - intros Hprinted.
    destruct Hout as [st1 e Hg | st1 Hg | st1 valid st' e Hg Hne Hloop
                     | st1 valid st' batches Hg Hne Hloop];
      try reflexivity; exfalso; apply Hprinted;
      apply gate_result in Hg as [-> _];
      try reflexivity;
      destruct (loop_grows _ _ _ _ _ _ _ Hloop) as (new & _ & ->);
      reflexivity.
Qed.

(* ================================================================== *)
(** ** Row by row: what each shaping step does to a table *)

Lemma Forall2_map_right {A B} (f : A -> B) (R : A -> B -> Prop) l :
  (forall a, In a l -> R a (f a)) -> Forall2 R l (map f l).
Proof.
  induction l as [|a t IH]; intros H; simpl; constructor.
  - apply H. left; reflexivity.
  - apply IH. intros b Hb. apply H. right; assumption.
Qed.

Lemma Forall2_map_left {A B C} (f : A -> B) (R : A -> C -> Prop) l l' :
  Forall2 (fun b c => forall a, b = f a -> R a c) (map f l) l' ->
  Forall2 R l l'.
Proof.
  revert l'. induction l as [|a t IH]; intros l' H; inversion H; subst;
    constructor.
  - match goal with Hh : forall a0, f a = f a0 -> _ |- _ => apply Hh end.
    reflexivity.
  - apply IH. assumption.
Qed.

Lemma Forall2_chain {A B C} (R : A -> B -> Prop) (S : B -> C -> Prop)
      (Q : A -> C -> Prop) l1 l2 l3 :
  (forall a b c, R a b -> S b c -> Q a c) ->
  Forall2 R l1 l2 -> Forall2 S l2 l3 -> Forall2 Q l1 l3.
Proof.
  intros HQ H12. revert l3.
  induction H12 as [|a b l1 l2 Hab _ IH]; intros l3 H23; inversion H23; subst;
    constructor.
  - eapply HQ; eassumption.
  - apply IH. assumption.
Qed.

Lemma rmap_forall2 {A B} (f : A -> result B) l l' :
  rmap f l = Ok l' -> Forall2 (fun a b => f a = Ok b) l l'.
Proof.
  revert l'. induction l as [|a t IH]; intros l'; simpl.
  - intros H. injection H as <-. constructor.
  - destruct (f a) as [b|e] eqn:Hf; [simpl|discriminate].
    destruct (rmap f t) as [bs|e]; [simpl|discriminate].
    intros H. injection H as <-. constructor; [assumption | apply IH; reflexivity].
Qed.

Lemma rmap_length {A B} (f : A -> result B) l l' :
  rmap f l = Ok l' -> List.length l' = List.length l.
Proof.
  intros H. apply rmap_forall2 in H. symmetry.
  induction H; simpl; [reflexivity | f_equal; assumption].
Qed.

Lemma cell_at_set_binding c v r : cell_at c (set_binding c v r) = v.
Proof. unfold cell_at. rewrite lookup_set_binding. reflexivity. Qed.

Lemma cell_at_set_binding_other c k v r :
  c <> k -> cell_at c (set_binding k v r) = cell_at c r.
Proof.
  intros H. unfold cell_at. rewrite lookup_set_binding_other by assumption.
  reflexivity.
Qed.

Lemma cell_at_del_binding_other c k (r : Row) :
  c <> k -> cell_at c (del_binding k r) = cell_at c r.
Proof.
  intros Hne. unfold cell_at, del_binding.
  induction r as [|[k' v'] t IH]; simpl; [reflexivity|].
  destruct (String.eqb k k') eqn:E; simpl.
  - apply String.eqb_eq in E. subst k'.
    apply String.eqb_neq in Hne. rewrite Hne. assumption.
  - destruct (String.eqb c k'); [reflexivity | assumption].
Qed.


Lemma all_ints_cells cells zs :
  all_ints cells = Some zs -> cells = map (fun z => V (JNum z)) zs.
Proof.
  revert zs. induction cells as [|c t IH]; intros zs; simpl.
  - intros H. injection H as <-. reflexivity.
  - destruct c as [| |j|]; try discriminate.
    destruct j; try discriminate.
    destruct (all_ints t) as [zs'|]; [|discriminate].
    intros H. injection H as <-. simpl. rewrite (IH zs' eq_refl). reflexivity.
Qed.

Lemma all_ints_of_ints zs : all_ints (map (fun z => V (JNum z)) zs) = Some zs.
Proof.
  induction zs as [|z t IH]; simpl; [reflexivity | rewrite IH; reflexivity].
Qed.

(** A conversion returns one value per cell. *)
Lemma to_datetime_ms_length lib cells out :
  to_datetime_ms lib cells = Ok out -> List.length out = List.length cells.
Proof.
  unfold to_datetime_ms. destruct (all_ints cells) as [zs|] eqn:Hz.
  - destruct (forallb representable zs); [|discriminate].
    intros H. injection H as <-.
    rewrite (all_ints_cells _ _ Hz), !length_map. reflexivity.
  - apply convert_column_ms_length.
Qed.

Lemma set_cells_column c rs :
  forall values,
    List.length values = List.length rs ->
    map (cell_at c) (set_cells c values rs) = values.
Proof.
  induction rs as [|r rs IH]; intros [|v values] Hlen; simpl in *;
    try discriminate Hlen; [reflexivity|].
  injection Hlen as Hlen. rewrite cell_at_set_binding, (IH values Hlen).
  reflexivity.
Qed.

Lemma set_cells_same_but c rs :
  forall values, Forall2 (same_but c) rs (set_cells c values rs).
Proof.
  assert (Hrefl : forall l : list Row, Forall2 (same_but c) l l).
  { induction l; constructor; [intros c' _; reflexivity | assumption]. }
  induction rs as [|r rs IH]; intros [|v values]; simpl;
    try apply Hrefl; try constructor.
  - intros c' Hc'. apply cell_at_set_binding_other. assumption.
  - apply IH.
Qed.

(** What decoding one column does to a table. *)
Lemma decode_ms_rows lib c df df' :
  decode_ms lib c df = Ok df' ->
  index df' = index df /\
  decoded_column lib c df df' /\
  Forall2 (same_but c) (rows df) (rows df').
Proof.
  unfold decode_ms, decoded_column.
  destruct (column df c) as [cells|e] eqn:Hcol; [simpl|discriminate].
  destruct (to_datetime_ms lib cells) as [values|e] eqn:Hmap;
    [simpl|discriminate].
  intros H. injection H as <-. split; [reflexivity|]. simpl.
  apply column_cells in Hcol. subst cells. split.
  - rewrite Hmap. f_equal. symmetry. apply set_cells_column.
    rewrite (to_datetime_ms_length _ _ _ Hmap). apply length_map.
  - apply set_cells_same_but.
Qed.

Lemma set_index_rows df c df' :
  set_index df c = Ok df' ->
  index df' = Keyed c (map (cell_at c) (rows df)) /\
  ~ In c (columns df') /\
  Forall2 (same_but c) (rows df) (rows df').
Proof.
  unfold set_index. destruct (has_column c (columns df)); [|discriminate].
  intros H. injection H as <-. simpl. split; [reflexivity|]. split.
  - intros Hin. apply filter_In in Hin as [_ Hin].
    rewrite String.eqb_refl in Hin. discriminate Hin.
  - apply Forall2_map_right. intros r _ c' Hc'.
    apply cell_at_del_binding_other. assumption.
Qed.


Lemma tag_rel s df :
  Forall2 (fun r0 r => tagged s r /\ same_but "symbol" r0 r)
          (rows df) (rows (tag s df)).
Proof.
  rewrite tag_rows. apply Forall2_map_right. intros r _. split.
  - apply cell_at_set_binding.
  - intros c Hc. apply cell_at_set_binding_other. assumption.
Qed.



(** A field bound to a value that is no dict is the cell of the column
    of that name. *)
Lemma lookup_app {A} k (d1 d2 : list (string * A)) v :
  lookup k d1 = Some v -> lookup k (d1 ++ d2) = Some v.
Proof.
  induction d1 as [|[k' v'] t IH]; simpl; [discriminate|].
  destruct (String.eqb k k'); [trivial | assumption].
Qed.

Lemma plain_field k fields x :
  lookup k fields = Some x -> is_obj x = false ->
  cell_at k (row_of_record fields) = V x.
Proof.
  intros Hk Hx. unfold cell_at, row_of_record, nested_to_record.
  rewrite map_app.
  rewrite (lookup_app k _ _ (V x)); [reflexivity|].
  induction fields as [|[k' v'] t IH]; simpl in *; [discriminate|].
  destruct (String.eqb k k') eqn:E.
  - injection Hk as ->. rewrite Hx. simpl. rewrite E. reflexivity.
  - destruct (is_obj v'); simpl; [|rewrite E]; apply IH; assumption.
Qed.

(* ================================================================== *)
(** ** The tables of the six operations *)

Lemma batched_tables lib op securities w st st' df :
  per_symbol op = false ->
  run lib op securities w st = (st', Ok (Some df)) ->
  exists st1 valid,
    return_valid_securities securities w st = (st1, Ok valid) /\
    valid <> [] /\
    st' = sent st1 (url_of op (String.concat "," valid))
               (w (requests st1) (url_of op (String.concat "," valid))) /\
    handler lib op (String.concat "," valid)
            (w (requests st1) (url_of op (String.concat "," valid))) = Ok df.
Proof.
  intros Hop Hrun. rewrite batched_run in Hrun by assumption.
  destruct (return_valid_securities securities w st) as [st1 [valid|e]];
    [|discriminate Hrun].
  destruct valid as [|s t]; [discriminate Hrun|].
  cbv zeta in Hrun.
  destruct (handler lib op _ _) as [d|e] eqn:Hd; simpl in Hrun;
    [|discriminate Hrun].
  injection Hrun as <- <-.
  exists st1, (s :: t). repeat split; [discriminate | assumption].
Qed.



Lemma json_normalize_length entries df :
  json_normalize (JArr entries) = Ok df ->
  List.length (rows df) = List.length entries /\
  Forall (fun j => is_obj j = true) entries.
Proof.
  simpl. destruct entries as [|j t].
  - intros H. injection H as <-. split; [reflexivity | constructor].
  - destruct (rmap as_record (j :: t)) as [ds|e] eqn:E; [simpl|discriminate].
    intros H. injection H as <-. simpl rows. rewrite length_map. split.
    + apply (rmap_length _ _ _ E).
    + apply rmap_forall2 in E. clear -E.
      induction E as [|a b l l' Hab _ IH]; constructor; [|assumption].
      destruct a; try discriminate Hab. reflexivity.
Qed.

(** An array of objects always normalises, to one row per object. *)
Lemma json_normalize_objects (entries : list (list (string * json))) :
  exists df0,
    json_normalize (JArr (map JObj entries)) = Ok df0 /\
    rows df0 = map row_of_record entries.
Proof.
  destruct entries as [|b entries]; [eexists; split; reflexivity|].
  simpl. assert (rmap as_record (map JObj entries) = Ok entries) as ->.
  { induction entries as [|x t IH]; simpl; [reflexivity|].
    rewrite IH. reflexivity. }
  eexists; split; reflexivity.
Qed.

(** The table of one symbol of the three operations that only tag. *)
Lemma tagging_table lib op s rep d :
  match op with Financials | Earnings | Bars _ => True | _ => False end ->
  handler lib op s rep = Ok d ->
  exists status data v,
    rep = Http status (Text data) /\
    match nest_of op with
    | Some key => getitem data key = Ok v
    | None => v = data
    end /\
    Forall2 (fun item r => tagged s r /\ same_but "symbol" (row_of_record item) r)
            (records v) (rows d) /\
    (forall entries, v = JArr entries ->
       List.length (rows d) = List.length entries /\
       Forall (fun j => is_obj j = true) entries).
Proof.
  intros Hop. unfold handler.
  destruct (frame_of_reply (nest_of op) rep) as [df0|e] eqn:Hdf;
    [simpl|discriminate].
  assert (shape lib op s df0 = Ok (tag s df0)) as ->
    by (destruct op; try contradiction; reflexivity).
  intros H. injection H as <-.
  assert (Hv : exists status data v,
            rep = Http status (Text data) /\
            match nest_of op with
            | Some key => getitem data key = Ok v
            | None => v = data
            end /\ json_normalize v = Ok df0).
  { destruct rep as [|status [|data]]; unfold frame_of_reply in Hdf;
      try discriminate Hdf;
      destruct (is_success status); try discriminate Hdf.
    simpl in Hdf. exists status, data.
    destruct op; try contradiction; simpl in *.
    - destruct (getitem data "financials") as [v|e]; [|discriminate Hdf].
      exists v. repeat split. assumption.
    - destruct (getitem data "earnings") as [v|e]; [|discriminate Hdf].
      exists v. repeat split. assumption.
    - exists data. repeat split. assumption. }
  destruct Hv as (status & data & v & -> & Hget & Hnorm).
  exists status, data, v. split; [reflexivity|]. split; [assumption|]. split.
  - apply (Forall2_map_left row_of_record).
    rewrite <- (json_normalize_rows _ _ Hnorm).
    eapply Forall2_impl; [|apply tag_rel].
    intros r0 r [Htag S] item ->. split; assumption.
  - intros entries ->. rewrite tag_rows, length_map.
    apply json_normalize_length. assumption.
Qed.


(* ================================================================== *)
(** ** Properties of the returned tables *)

(** C3.  The table a per-symbol operation (news, financials, earnings,
    bars) returns is made of one batch of rows per valid symbol, in
    order, each batch being the table made of the reply to that symbol's
    GET; every row of a batch holds that symbol in its [symbol] column, so
    every row of the table is tagged with a symbol that passed the gate:
    one the caller asked for and the reference list holds. *)
Theorem symbol_column_per_row lib op securities w st st' df :
  per_symbol op = true ->
  run lib op securities w st = (st', Ok (Some df)) ->
  exists st1 valid batches,
    return_valid_securities securities w st = (st1, Ok valid) /\
    map symbol batches = valid /\
    requests st' = requests st1 ++ fetches op batches /\
    Forall (fun b => handler lib op (symbol b) (answer b) = Ok (table b))
           batches /\
    rows df = flat_map (fun b => rows (table b)) batches /\
    Forall (fun b => Forall (tagged (symbol b)) (rows (table b))) batches /\
    (forall r, In r (rows df) ->
       exists s, tagged s r /\ In s valid /\ In s securities /\
                 in_reference_list (w (requests st) ref_url) s).
Proof.
  intros Hop Hrun.
  destruct (looped_tables _ _ _ _ _ _ _ Hop Hrun)
    as (st1 & valid & batches & Hg & _ & Hsym & Hreq & _ & Hall & _ & Hrows).
  assert (Htags : Forall (fun b => Forall (tagged (symbol b)) (rows (table b)))
                         batches).
  { eapply Forall_impl; [|exact Hall].
    intros b Hb. exact (handler_tagged _ _ _ _ _ Hop Hb). }
  exists st1, valid, batches. repeat split; try assumption.
  intros r Hr. rewrite Hrows in Hr.
  apply in_flat_map in Hr as (b & Hb & Hr).
  rewrite Forall_forall in Htags. specialize (Htags b Hb).
  rewrite Forall_forall in Htags.
  assert (Hs : In (symbol b) valid).
  { rewrite <- Hsym. apply in_map. assumption. }
  destruct (gate_members _ _ _ _ _ Hg _ Hs) as [Hin Href].
  exists (symbol b). repeat split; try assumption. apply Htags. assumption.
Qed.

Lemma symbol_column_per_row_witness :
  exists df,
    snd (get_trade_bars_data ["MSFT"; "AAPL"] "1y" sample_world initial)
      = Ok (Some df) /\
    List.length (rows df) = 2%nat /\
    forall r, In r (rows df) ->
      exists s, tagged s r /\ In s ["MSFT"; "AAPL"].
Proof.
  eassert (Hrun : run sample_lib (Bars "1y") ["MSFT"; "AAPL"] sample_world initial
                  = (_, Ok (Some _))) by (vm_compute; reflexivity).
  destruct (symbol_column_per_row sample_lib (Bars "1y") _ _ _ _ _ eq_refl Hrun)
    as (st1 & valid & batches & _ & _ & _ & _ & _ & _ & Hrows).
  eexists. split; [exact (f_equal snd Hrun)|]. split; [reflexivity|].
  intros r Hr. destruct (Hrows r Hr) as (s & Htag & _ & Hin & _).
  exists s. split; assumption.
Defined.



(** C7.  With one valid symbol, [get_trade_bars_data] sends, after the
    reference fetch, exactly one GET, to stock/SYMBOL/chart/BUCKET,
    whatever the bucket text is: nothing checks it.  When the server
    answers with an array of bar objects the table has one row per bar,
    each tagged with the symbol; when the request fails, the failure is
    the outcome of the call. *)
Theorem bars_single_symbol symbol bucket w st st1 :
  return_valid_securities [symbol] w st = (st1, Ok [symbol]) ->
  let url := ("https://api.iextrading.com/1.0/stock/" ++ symbol ++ "/chart/"
              ++ bucket)%string in
  let rep := w (requests st1) url in
  let out := get_trade_bars_data [symbol] bucket w st in
  requests (fst out)
    = requests st ++ [(ref_url, w (requests st) ref_url); (url, rep)] /\
  stdout (fst out) = stdout st /\
  (forall status bars,
     rep = Http status (Text (JArr (map JObj bars))) ->
     is_success status = true ->
     exists df,
       snd out = Ok (Some df) /\
       List.length (rows df) = List.length bars /\
       Forall (tagged symbol) (rows df)) /\
  (forall e, transport_failure rep = Some e -> snd out = Err e).
Proof.
  intros Hg url rep out.
  assert (Hout : out =
            (sent st1 url rep,
             match handler sample_lib (Bars bucket) symbol rep with
             | Ok d => Ok (Some (append empty_frame d))
             | Err e => Err e
             end)).
  { unfold out. change (get_trade_bars_data [symbol] bucket)
      with (run sample_lib (Bars bucket) [symbol]).
    rewrite looped_run, Hg by reflexivity. simpl for_each.
    rewrite bind_run. unfold turn.
    change (url_of (Bars bucket) symbol) with url. fold rep.
    destruct (handler sample_lib (Bars bucket) symbol rep); reflexivity. }
  rewrite Hout. apply gate_result in Hg as [-> _]. simpl fst. simpl snd.
  split; [simpl; rewrite <- app_assoc; reflexivity|].
  split; [reflexivity|]. split.
  - intros status bars Hrep Hs.
    destruct (json_normalize_objects bars) as (df0 & Hnorm & _).
    assert (Hh : handler sample_lib (Bars bucket) symbol rep
                 = Ok (tag symbol df0)).
    { unfold handler, frame_of_reply. rewrite Hrep, Hs. simpl nest_of.
      unfold json_loads, truthy, rbind at 2. rewrite Hnorm. reflexivity. }
    rewrite Hh. eexists. split; [reflexivity|]. simpl rows. split.
    + rewrite length_map.
      destruct (json_normalize_length _ _ Hnorm) as [Hlen _].
      etransitivity; [exact Hlen | apply length_map].
    + apply tag_tagged.
  - intros e He. rewrite (transport_failure_handler _ _ _ _ _ He). reflexivity.
Qed.

Lemma bars_single_symbol_witness :
  (exists df,
     snd (get_trade_bars_data ["AAPL"] "1y" sample_world initial)
       = Ok (Some df) /\
     List.length (rows df) = 2%nat /\
     Forall (tagged "AAPL") (rows df)) /\
  snd (get_trade_bars_data ["AAPL"] "10y" sample_world initial)
    = Err (HTTPError 404).
Proof.
  assert (Hgate : return_valid_securities ["AAPL"] sample_world initial
                  = (sent initial ref_url (sample_world [] ref_url),
                     Ok ["AAPL"])) by (vm_compute; reflexivity).
  split.
  - destruct (bars_single_symbol "AAPL" "1y" sample_world initial _ Hgate)
      as (_ & _ & Hbars & _).
    apply (Hbars 200
             [ [("date", JStr "2017-07-13"); ("close", JFloat "147.77");
                ("volume", JNum 25243000)];
               [("date", JStr "2017-07-14"); ("close", JFloat "149.04");
                ("volume", JNum 20132000)] ]);
      vm_compute; reflexivity.
  - apply (bars_single_symbol "AAPL" "10y" sample_world initial _ Hgate).
    vm_compute. reflexivity.
Defined.


Lemma failures_propagate_witness :
  Outcome sample_lib Financials sample_world ["IBM"] initial
    (mkState [(ref_url, sample_world [] ref_url);
              ("https://api.iextrading.com/1.0/stock/IBM/financials",
               Http 404 NotJson)] [])
    (Err (HTTPError 404)).
Proof.
  apply (failures_propagate sample_lib Financials ["IBM"] sample_world initial).
  vm_compute. reflexivity.
Defined.

(* ================================================================== *)
(** ** Further properties: what is requested, and in which order *)

(** However a loop ends, it has sent one GET for each target of a prefix
    of its targets, in order; the prefix is everything when it ends
    normally, and ends with the target whose reply raised otherwise. *)
Lemma loop_exchanges lib op w ts st st' r :
  Loop lib op w ts st st' r ->
  exists exchanges rest,
    ts = map fst exchanges ++ rest /\
    requests st' = requests st ++ asked op exchanges /\
    stdout st' = stdout st /\
    match r with
    | Ok bs => rest = [] /\ Forall (handled lib op) exchanges
    | Err e =>
        exists done s rep,
          exchanges = done ++ [(s, rep)] /\
          handler lib op s rep = Err e /\
          Forall (handled lib op) done
    end.
Proof.
  induction 1 as [st | t ts st e He | t ts st d st' r Hd _ IH].
  - exists [], []. simpl. rewrite app_nil_r. repeat split. constructor.
  - exists [(t, w (requests st) (url_of op t))], ts. simpl. repeat split.
    exists [], t, (w (requests st) (url_of op t)). repeat split.
    + assumption.
    + constructor.
  - destruct IH as (exchanges & rest & Hts & Hreq & Hout & Hr).
    exists ((t, w (requests st) (url_of op t)) :: exchanges), rest.
    simpl in Hreq, Hout. simpl. split; [f_equal; assumption|].
    split; [rewrite Hreq, <- app_assoc; reflexivity|].
    split; [assumption|].
    destruct r as [bs|e]; simpl.
    + destruct Hr as [Hrest Hall]. split; [assumption|].
      constructor; [exists d; assumption | assumption].
    + destruct Hr as (done & s & rep & -> & He & Hall).
      exists ((t, w (requests st) (url_of op t)) :: done), s, rep.
      repeat split; [assumption|].
      constructor; [exists d; assumption | assumption].
Qed.

Lemma url_of_on_endpoint op t : on_endpoint (url_of op t) = true.
Proof. destruct op; reflexivity. Qed.

(** X1.  When at least one symbol is valid, [get_latest_quote_and_trade]
    and [get_latest_trade] send, after the reference fetch, exactly one
    GET, whatever its outcome: to tops?symbols= or tops/last?symbols=
    followed by the valid symbols joined by commas, in the caller's
    order.  Nothing is printed. *)
Theorem batched_requests lib securities w st st1 valid :
  return_valid_securities securities w st = (st1, Ok valid) ->
  valid <> [] ->
  let joined := String.concat "," valid in
  let quotes := ("https://api.iextrading.com/1.0/tops?symbols=" ++ joined)%string in
  let trades :=
    ("https://api.iextrading.com/1.0/tops/last?symbols=" ++ joined)%string in
  fst (get_latest_quote_and_trade lib securities w st)
    = mkState (requests st ++ [(ref_url, w (requests st) ref_url);
                               (quotes, w (requests st1) quotes)])
              (stdout st) /\
  fst (get_latest_trade lib securities w st)
    = mkState (requests st ++ [(ref_url, w (requests st) ref_url);
                               (trades, w (requests st1) trades)])
              (stdout st).
Proof.
  intros Hg Hne joined quotes trades.
  change (get_latest_quote_and_trade lib) with (run lib QuoteTrade).
  change (get_latest_trade lib) with (run lib Trade).
  rewrite !batched_run, Hg by reflexivity.
  destruct valid as [|s t]; [contradiction Hne; reflexivity|].
  apply gate_result in Hg as [-> _].
  cbv zeta. simpl fst. unfold sent. simpl requests. simpl stdout.
  rewrite <- !app_assoc. split; reflexivity.
Qed.

Lemma batched_requests_witness :
  map fst (requests (fst (get_latest_trade sample_lib ["AAPL"; "MSFT"; "IBM"]
                            sample_world initial)))
  = [ref_url; "https://api.iextrading.com/1.0/tops/last?symbols=AAPL,IBM"].
Proof.
  assert (Hg : return_valid_securities ["AAPL"; "MSFT"; "IBM"] sample_world initial
               = (sent initial ref_url (sample_world [] ref_url),
                  Ok ["AAPL"; "IBM"])) by (vm_compute; reflexivity).
  destruct (batched_requests sample_lib _ _ _ _ _ Hg ltac:(discriminate))
    as [_ Htrade].
  rewrite Htrade. reflexivity.
Defined.

(** X2.  After a validation that found valid symbols, a per-symbol
    operation (news, financials, earnings, bars) sends one GET per symbol
    for a prefix of the valid symbols, in order, and prints nothing.  It
    returns a table only when it went through all of them; when it
    raises, the last GET sent is the one whose reply could not be
    handled, every earlier reply had been made into a table, and the
    remaining symbols are never requested. *)
Theorem per_symbol_requests lib op securities w st st' r st1 valid :
  per_symbol op = true ->
  run lib op securities w st = (st', r) ->
  return_valid_securities securities w st = (st1, Ok valid) ->
  valid <> [] ->
  exists exchanges rest,
    valid = map fst exchanges ++ rest /\
    requests st' = requests st1 ++ asked op exchanges /\
    stdout st' = stdout st /\
    r <> Ok None /\
    (forall df, r = Ok (Some df) ->
       rest = [] /\ Forall (handled lib op) exchanges) /\
    (forall e, r = Err e ->
       exists done s rep,
         exchanges = done ++ [(s, rep)] /\
         handler lib op s rep = Err e /\
         Forall (handled lib op) done).
Proof.
  intros Hop Hrun Hg Hne. apply run_outcome in Hrun.
  assert (Hout1 : stdout st1 = stdout st)
    by (apply gate_result in Hg as [-> _]; reflexivity).
  destruct Hrun as [st2 e Hg' | st2 Hg' | st2 valid' st' e Hg' _ Hloop
                   | st2 valid' st' batches Hg' _ Hloop];
    rewrite Hg in Hg'; try discriminate Hg'; injection Hg' as Hst Hv;
    subst; try (contradiction Hne; reflexivity);
    unfold targets in Hloop; rewrite Hop in Hloop;
    destruct (loop_exchanges _ _ _ _ _ _ _ Hloop)
      as (exchanges & rest & Hts & Hreq & Hout & Hr);
    exists exchanges, rest;
    (split; [assumption|]); (split; [assumption|]);
    (split; [rewrite Hout; assumption|]);
    (split; [discriminate|]); split.
  - intros df Hdf. discriminate Hdf.
  - intros e' He'. injection He' as <-. exact Hr.
  - intros df _. exact Hr.
  - intros e He. discriminate He.
Qed.

Lemma per_symbol_requests_witness :
  exists r,
    snd (get_latest_news sample_lib ["AAPL"; "IBM"; "AAPL"] 1 half_world initial)
      = r /\
    r <> Ok None /\
    map fst (requests (fst (get_latest_news sample_lib ["AAPL"; "IBM"; "AAPL"] 1
                              half_world initial)))
    = [ref_url;
       "https://api.iextrading.com/1.0/stock/AAPL/news/last/1";
       "https://api.iextrading.com/1.0/stock/IBM/news/last/1"].
Proof.
  eassert (Hrun : run sample_lib (News 1) ["AAPL"; "IBM"; "AAPL"] half_world
                    initial = (_, _)) by (vm_compute; reflexivity).
  assert (Hg : return_valid_securities ["AAPL"; "IBM"; "AAPL"] half_world initial
               = (sent initial ref_url (half_world [] ref_url),
                  Ok ["AAPL"; "IBM"; "AAPL"])) by (vm_compute; reflexivity).
  destruct (per_symbol_requests sample_lib (News 1) _ _ _ _ _ _ _ eq_refl
              Hrun Hg ltac:(discriminate))
    as (exchanges & rest & _ & _ & _ & Hnone & _).
  eexists. split; [exact (f_equal snd Hrun)|]. split; [exact Hnone|].
  reflexivity.
Defined.

(** X3.  Every GET of every operation goes to an address under the
    configured endpoint, and the first GET of a call is always the
    reference fetch: no data is requested before validation. *)
Theorem requests_on_endpoint lib op securities w st st' r :
  run lib op securities w st = (st', r) ->
  exists more,
    requests st' = requests st ++ (ref_url, w (requests st) ref_url) :: more /\
    on_endpoint ref_url = true /\
    Forall (fun x => on_endpoint (fst x) = true) more.
Proof.
  intros Hrun. apply run_outcome in Hrun.
  assert (Hasked : forall exchanges,
            Forall (fun x => on_endpoint (fst x) = true) (asked op exchanges)).
  { intros exchanges. apply Forall_forall. intros x Hx.
    apply in_map_iff in Hx as (y & <- & _). apply url_of_on_endpoint. }
  destruct Hrun as [st1 e Hg | st1 Hg | st1 valid st' e Hg _ Hloop
                   | st1 valid st' batches Hg _ Hloop];
    apply gate_result in Hg as [-> _].
  - exists []. repeat split. constructor.
  - exists []. repeat split. constructor.
  - destruct (loop_exchanges _ _ _ _ _ _ _ Hloop)
      as (exchanges & rest & _ & Hreq & _).
    exists (asked op exchanges). split; [|split; [reflexivity | apply Hasked]].
    rewrite Hreq. simpl. rewrite <- app_assoc. reflexivity.
  - destruct (loop_exchanges _ _ _ _ _ _ _ Hloop)
      as (exchanges & rest & _ & Hreq & _).
    exists (asked op exchanges). split; [|split; [reflexivity | apply Hasked]].
    rewrite Hreq. simpl. rewrite <- app_assoc. reflexivity.
Qed.

Lemma requests_on_endpoint_witness :
  exists more,
    requests (fst (get_earnings ["IBM"; "AAPL"] sample_world initial))
      = requests initial ++ (ref_url, sample_world [] ref_url) :: more /\
    on_endpoint ref_url = true /\
    Forall (fun x => on_endpoint (fst x) = true) more.
Proof.
  eassert (Hrun : run sample_lib Earnings ["IBM"; "AAPL"] sample_world initial
                  = (_, _)) by (vm_compute; reflexivity).
  destruct (requests_on_endpoint _ _ _ _ _ _ _ Hrun) as (more & Hreq & Hrest).
  exists more. split; [|exact Hrest].
  change (get_earnings ["IBM"; "AAPL"])
    with (run sample_lib Earnings ["IBM"; "AAPL"]).
  rewrite Hrun. exact Hreq.
Defined.

(* ================================================================== *)
(** ** Further properties of the validity gate *)

Lemma gate_raise_run lib op securities w st st1 e :
  return_valid_securities securities w st = (st1, Err e) ->
  run lib op securities w st = (st1, Err e).
Proof.
  intros Hg. destruct (per_symbol op) eqn:Hop.
  - rewrite looped_run, Hg by assumption. reflexivity.
  - rewrite batched_run, Hg by assumption. reflexivity.
Qed.

Lemma comprehension_hashable securities cells out :
  comprehension securities cells = Ok out ->
  securities <> [] ->
  forallb hashable cells = true.
Proof.
  destruct securities as [|x t]; [intros _ H; contradiction H; reflexivity|].
  simpl. unfold py_set. destruct (forallb hashable cells); [reflexivity|].
  discriminate.
Qed.

Lemma filter_twice {A} (f : A -> bool) l : filter f (filter f l) = filter f l.
Proof.
  induction l as [|x t IH]; simpl; [reflexivity|].
  destruct (f x) eqn:E; simpl; [rewrite E, IH; reflexivity | assumption].
Qed.

(** X4.  When the table of the reference fetch has no [symbol] column
    (the server sent an empty array, say), [return_valid_securities]
    raises KeyError('symbol') whatever the input, the empty list
    included, and so does each of the six operations: one GET has been
    sent, nothing is printed, and no diagnostic replaces the exception. *)
Theorem reference_without_symbols lib op securities w st st1 df0 :
  _url_to_dataframe ref_url None w st = (st1, Ok df0) ->
  has_column "symbol" (columns df0) = false ->
  return_valid_securities securities w st = (st1, Err (KeyError "symbol")) /\
  return_valid_securities [] w st = (st1, Err (KeyError "symbol")) /\
  run lib op securities w st = (st1, Err (KeyError "symbol")) /\
  requests st1 = requests st ++ [(ref_url, w (requests st) ref_url)] /\
  stdout st1 = stdout st.
Proof.
  intros Hdf Hcol. rewrite url_to_dataframe_run in Hdf.
  injection Hdf as <- Hdf.
  assert (Hg : forall l, return_valid_securities l w st
                         = (sent st ref_url (w (requests st) ref_url),
                            Err (KeyError "symbol"))).
  { intros l. rewrite gate_run. unfold validate, reference_column.
    rewrite Hdf. simpl. unfold column. rewrite Hcol. reflexivity. }
  split; [apply Hg|]. split; [apply Hg|].
  split; [apply gate_raise_run; apply Hg|]. split; reflexivity.
Qed.

Lemma reference_without_symbols_witness :
  get_latest_trade sample_lib ["AAPL"] empty_reference_world initial
  = (mkState [(ref_url, ok (JArr []))] [], Err (KeyError "symbol")).
Proof.
  apply (reference_without_symbols sample_lib Trade ["AAPL"]
           empty_reference_world initial _ empty_frame);
    vm_compute; reflexivity.
Defined.

(** X5.  Once the reference table has a [symbol] column, what
    [return_valid_securities] does is decided by the cells of that column:
    the empty input always validates to the empty list; when no cell is
    an array, every input validates to its membership filter; when some
    cell is an array, every non-empty input raises TypeError, because the
    set of the column is built for each requested symbol. *)
Theorem validation_by_cases securities w st cells :
  reference_column (w (requests st) ref_url) = Ok cells ->
  snd (return_valid_securities [] w st) = Ok [] /\
  (forallb hashable cells = true ->
   snd (return_valid_securities securities w st)
     = Ok (filter (listed cells) securities)) /\
  (forallb hashable cells = false -> securities <> [] ->
   snd (return_valid_securities securities w st) = Err TypeError).
Proof.
  intros Hcol. rewrite !gate_run. simpl snd. unfold validate.
  rewrite Hcol. simpl. split; [reflexivity|]. split.
  - apply comprehension_total.
  - intros Hh Hne. destruct securities as [|x t];
      [contradiction Hne; reflexivity|].
    simpl. unfold py_set. rewrite Hh. reflexivity.
Qed.

Lemma validation_by_cases_witness :
  snd (return_valid_securities [] array_symbol_world initial) = Ok [] /\
  snd (return_valid_securities ["AAPL"] array_symbol_world initial)
    = Err TypeError /\
  snd (return_valid_securities ["IBM"; "MSFT"] sample_world initial)
    = Ok ["IBM"].
Proof.
  split; [|split].
  - apply (proj1 (validation_by_cases [] array_symbol_world initial
                    [V (JArr [JStr "AAPL"])] eq_refl)).
  - apply (proj2 (proj2 (validation_by_cases ["AAPL"] array_symbol_world initial
                           [V (JArr [JStr "AAPL"])] eq_refl)));
      [reflexivity | discriminate].
  - apply (proj1 (proj2 (validation_by_cases ["IBM"; "MSFT"] sample_world initial
                           [V (JStr "AAPL"); V (JStr "IBM")] eq_refl))).
    reflexivity.
Defined.

(** X6.  Validation is idempotent: validating the list a call returned,
    against the same reference reply, returns that list again.  The
    operations may therefore be fed an already validated list without
    losing a symbol. *)
Theorem validation_idempotent securities w st st1 out w' st' :
  return_valid_securities securities w st = (st1, Ok out) ->
  w' (requests st') ref_url = w (requests st) ref_url ->
  snd (return_valid_securities out w' st') = Ok out.
Proof.
  intros Hg Hsame. rewrite gate_run, Hsame. simpl snd.
  apply gate_result in Hg as [_ Hval]. symmetry in Hval.
  unfold validate in *.
  destruct (reference_column (w (requests st) ref_url)) as [cells|e];
    [simpl in *|discriminate Hval].
  pose proof (comprehension_filter _ _ _ Hval) as ->.
  destruct securities as [|x t]; [reflexivity|].
  rewrite comprehension_total
    by (eapply comprehension_hashable; [eassumption | discriminate]).
  rewrite filter_twice. reflexivity.
Qed.

Lemma validation_idempotent_witness :
  snd (return_valid_securities ["AAPL"; "IBM"] sample_world initial)
    = Ok ["AAPL"; "IBM"].
Proof.
  apply (validation_idempotent ["MSFT"; "AAPL"; "GE"; "IBM"] sample_world
           initial (sent initial ref_url (sample_world [] ref_url))
           ["AAPL"; "IBM"] sample_world initial).
  - vm_compute. reflexivity.
  - reflexivity.
Defined.

(** X7.  Validation works symbol by symbol: when the concatenation of
    two lists validates, each list validates on its own against the same
    reference reply, and the result for the concatenation is the
    concatenation of the two results. *)
Theorem validation_concat a b w st st1 out :
  return_valid_securities (a ++ b) w st = (st1, Ok out) ->
  exists oa ob,
    snd (return_valid_securities a w st) = Ok oa /\
    snd (return_valid_securities b w st) = Ok ob /\
    out = oa ++ ob.
Proof.
  intros Hg. apply gate_result in Hg as [_ Hval]. symmetry in Hval.
  rewrite !gate_run. simpl snd. unfold validate in *.
  destruct (reference_column (w (requests st) ref_url)) as [cells|e];
    [simpl in *|discriminate Hval].
  pose proof (comprehension_filter _ _ _ Hval) as ->.
  assert (Hpart : forall l, l = [] \/ forallb hashable cells = true ->
            comprehension l cells = Ok (filter (listed cells) l)).
  { intros l [-> | Hh]; [reflexivity | apply comprehension_total; assumption]. }
  exists (filter (listed cells) a), (filter (listed cells) b).
  destruct (a ++ b) as [|x t] eqn:Hab.
  - apply app_eq_nil in Hab as [-> ->]. repeat split.
  - assert (Hh : forallb hashable cells = true)
      by (eapply comprehension_hashable; [eassumption | discriminate]).
    rewrite <- Hab, filter_app.
    split; [apply Hpart; right; assumption|].
    split; [apply Hpart; right; assumption | reflexivity].
Qed.

Lemma validation_concat_witness :
  exists oa ob,
    snd (return_valid_securities ["MSFT"; "IBM"] sample_world initial) = Ok oa /\
    snd (return_valid_securities ["AAPL"; "IBM"] sample_world initial) = Ok ob /\
    ["IBM"; "AAPL"; "IBM"] = oa ++ ob.
Proof.
  apply (validation_concat ["MSFT"; "IBM"] ["AAPL"; "IBM"] sample_world initial
           (sent initial ref_url (sample_world [] ref_url))).
  vm_compute. reflexivity.
Defined.

(* ================================================================== *)
(** ** Further properties of the tables *)

Lemma has_column_app c seen more :
  has_column c (seen ++ more) = has_column c seen || has_column c more.
Proof. apply existsb_app. Qed.

Lemma add_columns_has c more :
  forall seen,
    has_column c (add_columns seen more)
    = has_column c seen || has_column c more.
Proof.
  induction more as [|c1 t IH]; intros seen; simpl.
  - rewrite orb_false_r. reflexivity.
  - destruct (has_column c1 seen) eqn:Hc1; rewrite IH.
    + destruct (String.eqb c c1) eqn:E; [|reflexivity].
      apply String.eqb_eq in E. subst c1. rewrite Hc1. reflexivity.
    + rewrite has_column_app. simpl. rewrite orb_false_r, orb_assoc.
      reflexivity.
Qed.

Lemma add_columns_present c cols :
  has_column c cols = true -> add_columns cols [c] = cols.
Proof. intros H. simpl. rewrite H. reflexivity. Qed.

Lemma fold_append_index ds :
  forall acc, index acc = RangeIndex ->
              index (fold_left append ds acc) = RangeIndex.
Proof.
  induction ds as [|d ds IH]; intros acc Hacc; simpl;
    [assumption | apply IH; reflexivity].
Qed.

Lemma fold_append_columns c ds :
  forall acc,
    has_column c (columns (fold_left append ds acc))
    = has_column c (columns acc)
      || existsb (fun d => has_column c (columns d)) ds.
Proof.
  induction ds as [|d ds IH]; intros acc; simpl.
  - rewrite orb_false_r. reflexivity.
  - rewrite IH. simpl. rewrite add_columns_has, orb_assoc. reflexivity.
Qed.

Lemma handler_symbol_column lib op s rep d :
  per_symbol op = true ->
  handler lib op s rep = Ok d ->
  has_column "symbol" (columns d) = true.
Proof.
  intros Hop. unfold handler.
  destruct (frame_of_reply (nest_of op) rep) as [df|e]; [simpl|discriminate].
  assert (Htag : has_column "symbol" (columns (tag s df)) = true).
  { change (columns (tag s df)) with (add_columns (columns df) ["symbol"]).
    rewrite add_columns_has. apply orb_true_r. }
  destruct op; try discriminate Hop; simpl;
    try (intros H; injection H as <-; exact Htag).
  destruct (rbind (column df "datetime") _) as [time|e]; [simpl|discriminate].
  destruct (del_column _ _) as [df1|e]; [simpl|discriminate].
  intros Hsel. apply select_rows in Hsel as [-> _]. reflexivity.
Qed.

(** X8.  A table returned by a per-symbol operation has its rows
    numbered afresh (the index of no batch survives), has a [symbol]
    column, and has every column that the table of any of its symbols
    has. *)
Theorem per_symbol_table_columns lib op securities w st st' df :
  per_symbol op = true ->
  run lib op securities w st = (st', Ok (Some df)) ->
  index df = RangeIndex /\
  has_column "symbol" (columns df) = true /\
  exists batches,
    rows df = flat_map (fun b => rows (table b)) batches /\
    Forall (fun b => handler lib op (symbol b) (answer b) = Ok (table b))
           batches /\
    forall b c, In b batches -> has_column c (columns (table b)) = true ->
                has_column c (columns df) = true.
Proof.
  intros Hop Hrun.
  destruct (looped_tables _ _ _ _ _ _ _ Hop Hrun)
    as (st1 & valid & batches & _ & Hne & Hsym & _ & _ & Hall & -> & Hrows).
  assert (Hunion : forall b c, In b batches ->
            has_column c (columns (table b)) = true ->
            has_column c (columns (fold_left append (map table batches)
                                             empty_frame)) = true).
  { intros b c Hb Hc. rewrite fold_append_columns. simpl.
    apply existsb_exists. exists (table b). split; [|assumption].
    apply in_map. assumption. }
  split; [apply fold_append_index; reflexivity|]. split.
  - destruct batches as [|b bs]; [contradiction Hne; rewrite <- Hsym; reflexivity|].
    apply (Hunion b); [left; reflexivity|].
    apply Forall_inv in Hall. eapply handler_symbol_column; eassumption.
  - exists batches. split; [assumption|]. split; assumption.
Qed.

Lemma per_symbol_table_columns_witness :
  exists df,
    snd (get_financials ["AAPL"] sample_world initial) = Ok (Some df) /\
    index df = RangeIndex /\
    columns df = ["reportDate"; "totalRevenue"; "symbol"].
Proof.
  eassert (Hrun : run sample_lib Financials ["AAPL"] sample_world initial
                  = (_, Ok (Some _))) by (vm_compute; reflexivity).
  destruct (per_symbol_table_columns sample_lib Financials _ _ _ _ _
              eq_refl Hrun) as (Hidx & _).
  eexists. split; [exact (f_equal snd Hrun)|]. split; [exact Hidx|].
  reflexivity.
Defined.

(** X9.  The two batched operations read their time columns by name
    before anything else: when the table of the reply has no
    [lastSaleTime] column, [get_latest_quote_and_trade] raises
    KeyError('lastSaleTime'), and when it has no [time] column,
    [get_latest_trade] raises KeyError('time').  An empty array from the
    server is such a reply: valid symbols without data give an exception,
    not an empty table. *)
Theorem batched_missing_column lib securities w st st1 valid st2 df0 :
  return_valid_securities securities w st = (st1, Ok valid) ->
  valid <> [] ->
  let joined := String.concat "," valid in
  (_url_to_dataframe
     ("https://api.iextrading.com/1.0/tops?symbols=" ++ joined)%string None w st1
     = (st2, Ok df0) ->
   has_column "lastSaleTime" (columns df0) = false ->
   get_latest_quote_and_trade lib securities w st
     = (st2, Err (KeyError "lastSaleTime"))) /\
  (_url_to_dataframe
     ("https://api.iextrading.com/1.0/tops/last?symbols=" ++ joined)%string None w
     st1 = (st2, Ok df0) ->
   has_column "time" (columns df0) = false ->
   get_latest_trade lib securities w st = (st2, Err (KeyError "time"))).
Proof.
  intros Hg Hne joined.
  change (get_latest_quote_and_trade lib) with (run lib QuoteTrade).
  change (get_latest_trade lib) with (run lib Trade).
  rewrite !batched_run, Hg by reflexivity.
  destruct valid as [|s t]; [contradiction Hne; reflexivity|].
  cbv zeta. fold joined. split; intros Hdf Hcol;
    rewrite url_to_dataframe_run in Hdf;
    pose proof (f_equal fst Hdf) as Hfst; pose proof (f_equal snd Hdf) as Hsnd;
    cbn [fst snd] in Hfst, Hsnd; unfold handler; cbn [nest_of].
  - change (url_of QuoteTrade joined)
      with ("https://api.iextrading.com/1.0/tops?symbols=" ++ joined)%string.
    rewrite Hsnd, Hfst. cbn [rbind shape]. unfold decode_ms, column.
    rewrite Hcol. reflexivity.
  - change (url_of Trade joined)
      with ("https://api.iextrading.com/1.0/tops/last?symbols=" ++ joined)%string.
    rewrite Hsnd, Hfst. cbn [rbind shape]. unfold decode_ms, column.
    rewrite Hcol. reflexivity.
Qed.

Lemma batched_missing_column_witness :
  snd (get_latest_quote_and_trade sample_lib ["AAPL"] quiet_world initial)
    = Err (KeyError "lastSaleTime") /\
  snd (get_latest_trade sample_lib ["AAPL"] quiet_world initial)
    = Err (KeyError "time").
Proof.
  assert (Hg : return_valid_securities ["AAPL"] quiet_world initial
               = (sent initial ref_url (quiet_world [] ref_url), Ok ["AAPL"]))
    by (vm_compute; reflexivity).
  destruct (batched_missing_column sample_lib _ _ _ _ _
              (sent (sent initial ref_url (quiet_world [] ref_url))
                    "https://api.iextrading.com/1.0/tops?symbols=AAPL"
                    (ok (JArr [])))
              empty_frame Hg ltac:(discriminate)) as [Hq _].
  destruct (batched_missing_column sample_lib _ _ _ _ _
              (sent (sent initial ref_url (quiet_world [] ref_url))
                    "https://api.iextrading.com/1.0/tops/last?symbols=AAPL"
                    (ok (JArr [])))
              empty_frame Hg ltac:(discriminate)) as [_ Ht].
  split.
  - rewrite Hq; [reflexivity | vm_compute; reflexivity | reflexivity].
  - rewrite Ht; [reflexivity | vm_compute; reflexivity | reflexivity].
Defined.

Lemma has_column_filter_other c k cols :
  c <> k ->
  has_column c (filter (fun c' => negb (String.eqb k c')) cols)
  = has_column c cols.
Proof.
  intros Hne. induction cols as [|c1 t IH]; simpl; [reflexivity|].
  destruct (String.eqb k c1) eqn:E; simpl.
  - apply String.eqb_eq in E. subst c1.
    apply String.eqb_neq in Hne. rewrite Hne. assumption.
  - rewrite IH. reflexivity.
Qed.

Lemma missing_labels_ext cs cols cols' :
  (forall c, In c cs -> has_column c cols' = has_column c cols) ->
  missing_labels cs cols' = missing_labels cs cols.
Proof.
  intros H. unfold missing_labels. apply filter_ext_in.
  intros c Hc. rewrite (H c Hc). reflexivity.
Qed.

Lemma column_present df c cells :
  column df c = Ok cells -> has_column c (columns df) = true.
Proof.
  unfold column. destruct (has_column c (columns df)); [reflexivity|discriminate].
Qed.

(** What a news reply is missing decides the exception, whatever the
    symbol it was fetched for. *)
Lemma news_handler_missing lib count t rep df0 :
  frame_of_reply None rep = Ok df0 ->
  (has_column "datetime" (columns df0) = false ->
   handler lib (News count) t rep = Err (KeyError "datetime")) /\
  (forall time k rest,
     rbind (column df0 "datetime") (rmap (parse_datetime lib)) = Ok time ->
     missing_labels news_texts (columns df0) = k :: rest ->
     handler lib (News count) t rep = Err (KeyErrorLabels (k :: rest))).
Proof.
  intros Hdf. unfold handler. cbn [nest_of]. rewrite Hdf. cbn [rbind shape].
  split.
  - intros Hcol. unfold column. rewrite Hcol. reflexivity.
  - intros time k rest Htime Hmiss. rewrite Htime. cbn [rbind].
    assert (Hdt : has_column "datetime" (columns df0) = true).
    { destruct (column df0 "datetime") as [cells|e] eqn:Hc; [|discriminate Htime].
      eapply column_present; eassumption. }
    set (cols1 := add_columns (columns df0) ["time"]).
    assert (Hdel : del_column (set_column df0 "time" time) "datetime"
                   = Ok (mkDataFrame
                           (filter (fun c' => negb (String.eqb "datetime" c')) cols1)
                           (index df0)
                           (map (del_binding "datetime")
                                (set_cells "time" time (rows df0))))).
    { unfold del_column, set_column. cbn [columns index rows]. fold cols1.
      unfold cols1. rewrite add_columns_has, Hdt. reflexivity. }
    rewrite Hdel. cbn [rbind]. unfold select, tag, set_scalar.
    cbn [columns index rows].
    set (cols2 := add_columns
                    (filter (fun c' => negb (String.eqb "datetime" c')) cols1)
                    ["symbol"]).
    assert (Hkeep : forall c, c <> "datetime" ->
              has_column c cols2
              = has_column c (columns df0) || String.eqb c "time"
                || String.eqb c "symbol").
    { intros c Hc. unfold cols2, cols1.
      rewrite add_columns_has, has_column_filter_other, add_columns_has
        by assumption.
      simpl. rewrite !orb_false_r. reflexivity. }
    assert (Hsame : missing_labels news_columns cols2
                    = missing_labels news_texts (columns df0)).
    { change news_columns with ("symbol" :: "time" :: news_texts).
      unfold missing_labels at 1. cbn [filter].
      rewrite (Hkeep "symbol") by discriminate.
      rewrite (Hkeep "time") by discriminate.
      rewrite !orb_true_r. rewrite orb_true_l. cbn [negb].
      apply missing_labels_ext.
      intros c Hc. simpl in Hc.
      repeat (destruct Hc as [<-|Hc];
              [rewrite Hkeep by discriminate; simpl;
               rewrite !orb_false_r; reflexivity|]).
      destruct Hc. }
    rewrite Hsame, Hmiss. reflexivity.
Qed.

(** In a loop, a reply that no target can be handled with is the last
    one fetched, and its exception is the loop's. *)
Lemma loop_fails lib op w ts st st' r :
  Loop lib op w ts st st' r ->
  forall pre url rep post e,
    requests st' = requests st ++ pre ++ (url, rep) :: post ->
    (forall t, handler lib op t rep = Err e) ->
    post = [] /\ r = Err e.
Proof.
  induction 1 as [st | t ts st e0 He0 | t ts st d st' r Hd Hloop IH];
    intros pre url rep post e Hreq Hfail.
  - exfalso. rewrite <- (app_nil_r (requests st)) in Hreq at 1.
    apply app_inv_head in Hreq. destruct pre; discriminate Hreq.
  - simpl in Hreq. apply app_inv_head in Hreq.
    apply single_split in Hreq as (_ & -> & Heq). injection Heq as <- <-.
    rewrite Hfail in He0. injection He0 as ->. split; reflexivity.
  - destruct (loop_grows _ _ _ _ _ _ _ Hloop) as (new & Hnew & _).
    simpl in Hnew. rewrite Hnew, <- app_assoc in Hreq.
    apply app_inv_head in Hreq. simpl in Hreq.
    destruct pre as [|p pre]; simpl in Hreq.
    + injection Hreq as Hurl Hrep _. subst rep.
      rewrite Hfail in Hd. discriminate Hd.
    + injection Hreq as _ Hreq. subst new.
      destruct (IH pre url rep post e) as [-> ->]; [|assumption|].
      * simpl. rewrite Hnew, <- app_assoc. reflexivity.
      * split; reflexivity.
Qed.

(** The same for a call, for the requests after the reference fetch. *)
Lemma run_fails lib op securities w st st' r :
  per_symbol op = true ->
  run lib op securities w st = (st', r) ->
  forall pre url rep post e,
    requests st' = requests st ++ pre ++ (url, rep) :: post ->
    pre <> [] ->
    (forall t, handler lib op t rep = Err e) ->
    post = [] /\ r = Err e.
Proof.
  intros Hop Hrun pre url rep post e Hreq Hpre Hfail.
  apply run_outcome in Hrun.
  assert (Hshort : forall st1,
            st1 = sent st ref_url (w (requests st) ref_url) ->
            requests st' = requests st1 -> False).
  { intros st1 -> Hsame. rewrite Hsame in Hreq. simpl in Hreq.
    apply app_inv_head in Hreq.
    destruct pre as [|p pre]; [contradiction Hpre; reflexivity|].
    simpl in Hreq. injection Hreq as _ Hreq. destruct pre; discriminate Hreq. }
  assert (Hlong : forall st1 rb,
            st1 = sent st ref_url (w (requests st) ref_url) ->
            Loop lib op w (targets op
                             (match validate (w (requests st) ref_url) securities
                              with Ok v => v | Err _ => [] end)) st1 st' rb ->
            post = [] /\ rb = Err e).
  { intros st1 rb -> Hloop.
    destruct (loop_grows _ _ _ _ _ _ _ Hloop) as (new & Hnew & _).
    simpl in Hnew. rewrite Hnew, <- app_assoc in Hreq.
    apply app_inv_head in Hreq. simpl in Hreq.
    destruct pre as [|p pre]; [contradiction Hpre; reflexivity|].
    simpl in Hreq. injection Hreq as _ Hreq. subst new.
    apply (loop_fails _ _ _ _ _ _ _ Hloop pre url rep post e); [|assumption].
    simpl. rewrite Hnew, <- app_assoc. reflexivity. }
  destruct Hrun as [st1 e0 Hg | st1 Hg | st1 valid st' e0 Hg _ Hloop
                   | st1 valid st' batches Hg _ Hloop];
    apply gate_result in Hg as [Hst1 Hval].
  - exfalso. apply (Hshort st1 Hst1). reflexivity.
  - exfalso. apply (Hshort st1 Hst1). reflexivity.
  - rewrite <- Hval in Hlong.
    destruct (Hlong st1 _ Hst1 Hloop) as [-> He]. injection He as ->.
    split; reflexivity.
  - rewrite <- Hval in Hlong.
    destruct (Hlong st1 _ Hst1 Hloop) as [_ He]. discriminate He.
Qed.

(** X10.  [get_latest_news] reads [datetime] by name and then selects
    seven columns by name: a reply whose table has no [datetime] column
    (an empty array, for a symbol without news) ends the call with
    KeyError('datetime'), and a reply whose [datetime] cells all decode
    but whose table lacks some of headline, summary, source, url, related
    ends it with the one KeyError that names all the missing ones, in
    that order.  Either way no further symbol is requested. *)
Theorem news_missing_column lib securities count w st st' r :
  get_latest_news lib securities count w st = (st', r) ->
  forall pre url rep post df0,
    requests st' = requests st ++ pre ++ (url, rep) :: post ->
    pre <> [] ->
    frame_of_reply None rep = Ok df0 ->
    (has_column "datetime" (columns df0) = false ->
     post = [] /\ r = Err (KeyError "datetime")) /\
    (forall time k rest,
       rbind (column df0 "datetime") (rmap (parse_datetime lib)) = Ok time ->
       missing_labels ["headline"; "summary"; "source"; "url"; "related"]
                      (columns df0) = k :: rest ->
       post = [] /\ r = Err (KeyErrorLabels (k :: rest))).
Proof.
  intros Hrun pre url rep post df0 Hreq Hpre Hdf.
  change (get_latest_news lib securities count)
    with (run lib (News count) securities) in Hrun.
  split.
  - intros Hcol.
    apply (run_fails lib (News count) _ _ _ _ _ eq_refl Hrun pre url rep post);
      try assumption.
    intros t. apply (news_handler_missing lib count t rep df0 Hdf). assumption.
  - intros time k rest Htime Hmiss.
    apply (run_fails lib (News count) _ _ _ _ _ eq_refl Hrun pre url rep post);
      try assumption.
    intros t.
    apply (proj2 (news_handler_missing lib count t rep df0 Hdf) time k rest);
      assumption.
Qed.

Lemma news_missing_column_witness :
  (snd (get_latest_news sample_lib ["AAPL"; "AAPL"] 3 quiet_world initial)
     = Err (KeyError "datetime") /\
   List.length (requests (fst (get_latest_news sample_lib ["AAPL"; "AAPL"] 3
                                 quiet_world initial))) = 2%nat) /\
  snd (get_latest_news sample_lib ["AAPL"; "AAPL"] 1 bare_news_world initial)
    = Err (KeyErrorLabels ["summary"; "related"]).
Proof.
  split.
  - eassert (Hrun : get_latest_news sample_lib ["AAPL"; "AAPL"] 3 quiet_world
                      initial = (_, _)) by (vm_compute; reflexivity).
    destruct (news_missing_column _ _ _ _ _ _ _ Hrun
                [(ref_url, quiet_world [] ref_url)]
                "https://api.iextrading.com/1.0/stock/AAPL/news/last/3"
                (ok (JArr [])) [] empty_frame eq_refl ltac:(discriminate) eq_refl)
      as [Hdatetime _].
    destruct (Hdatetime eq_refl) as [_ Hr].
    rewrite Hrun. split; [exact Hr | reflexivity].
  - eassert (Hrun : get_latest_news sample_lib ["AAPL"; "AAPL"] 1 bare_news_world
                      initial = (_, _)) by (vm_compute; reflexivity).
    eassert (Hdf : frame_of_reply None
                     (bare_news_world [] "https://api.iextrading.com/1.0/stock/AAPL/news/last/1")
                   = Ok _) by (vm_compute; reflexivity).
    destruct (news_missing_column _ _ _ _ _ _ _ Hrun
                [(ref_url, bare_news_world [] ref_url)]
                "https://api.iextrading.com/1.0/stock/AAPL/news/last/1"
                _ [] _ eq_refl ltac:(discriminate) Hdf)
      as [_ Hlabels].
    destruct (Hlabels [V (JStr "2017-06-29T13:14:22-04:00")]
                      "summary" ["related"] eq_refl eq_refl) as [_ Hr].
    rewrite Hrun. exact Hr.
Defined.

Lemma decode_ms_columns lib c df df' :
  decode_ms lib c df = Ok df' -> columns df' = columns df.
Proof.
  unfold decode_ms.
  destruct (column df c) as [cells|e] eqn:Hcol; [simpl|discriminate].
  destruct (to_datetime_ms lib cells) as [values|e]; [simpl|discriminate].
  intros H. injection H as <-. unfold set_column. cbn [columns].
  apply add_columns_present. eapply column_present. eassumption.
Qed.

Lemma set_index_columns df c df' :
  set_index df c = Ok df' ->
  columns df' = filter (fun c' => negb (String.eqb c c')) (columns df).
Proof.
  unfold set_index. destruct (has_column c (columns df)); [|discriminate].
  intros H. injection H as <-. reflexivity.
Qed.

Lemma batched_source lib op securities w st st' df :
  per_symbol op = false ->
  run lib op securities w st = (st', Ok (Some df)) ->
  exists st1 valid df0,
    return_valid_securities securities w st = (st1, Ok valid) /\
    _url_to_dataframe (url_of op (String.concat "," valid)) None w st1
      = (st', Ok df0) /\
    shape lib op (String.concat "," valid) df0 = Ok df.
Proof.
  intros Hop Hrun.
  destruct (batched_tables _ _ _ _ _ _ _ Hop Hrun)
    as (st1 & valid & Hg & _ & -> & Hh).
  exists st1, valid. unfold handler in Hh.
  assert (nest_of op = None) as Hn by (destruct op; try discriminate Hop; reflexivity).
  rewrite Hn in Hh.
  destruct (frame_of_reply None _) as [df0|e] eqn:Hdf; [|discriminate Hh].
  exists df0. split; [assumption|]. split; [|exact Hh].
  rewrite url_to_dataframe_run, Hdf. reflexivity.
Qed.

(** X11.  The two batched operations change nothing but what they name:
    the returned table has the columns of the table fetched, in the same
    order, without [symbol] (which labels the rows), one row per row
    fetched, and every cell outside the decoded time columns is the cell
    fetched. *)
Theorem batched_passthrough lib securities w st st' df :
  (get_latest_quote_and_trade lib securities w st = (st', Ok (Some df)) ->
   exists st1 valid df0,
     return_valid_securities securities w st = (st1, Ok valid) /\
     _url_to_dataframe
       ("https://api.iextrading.com/1.0/tops?symbols="
        ++ String.concat "," valid)%string None w st1 = (st', Ok df0) /\
     columns df = filter (fun c => negb (String.eqb "symbol" c)) (columns df0) /\
     Forall2 (fun r0 r => forall c, c <> "lastSaleTime" -> c <> "lastUpdated" ->
                                    c <> "symbol" -> cell_at c r = cell_at c r0)
             (rows df0) (rows df)) /\
  (get_latest_trade lib securities w st = (st', Ok (Some df)) ->
   exists st1 valid df0,
     return_valid_securities securities w st = (st1, Ok valid) /\
     _url_to_dataframe
       ("https://api.iextrading.com/1.0/tops/last?symbols="
        ++ String.concat "," valid)%string None w st1 = (st', Ok df0) /\
     columns df = filter (fun c => negb (String.eqb "symbol" c)) (columns df0) /\
     Forall2 (fun r0 r => forall c, c <> "time" -> c <> "symbol" ->
                                    cell_at c r = cell_at c r0)
             (rows df0) (rows df)).
Proof.
  split; intros Hrun.
  - destruct (batched_source lib QuoteTrade _ _ _ _ _ eq_refl Hrun)
      as (st1 & valid & df0 & Hg & Hdf & Hshape).
    exists st1, valid, df0. split; [assumption|]. split; [exact Hdf|].
    cbn [shape] in Hshape.
    destruct (decode_ms lib "lastSaleTime" df0) as [df1|e] eqn:H1;
      [cbn [rbind] in Hshape|discriminate].
    destruct (decode_ms lib "lastUpdated" df1) as [df2|e] eqn:H2;
      [cbn [rbind] in Hshape|discriminate].
    split.
    + rewrite (set_index_columns _ _ _ Hshape),
        (decode_ms_columns _ _ _ _ H2), (decode_ms_columns _ _ _ _ H1).
      reflexivity.
    + apply decode_ms_rows in H1 as (_ & _ & H1), H2 as (_ & _ & H2).
      apply set_index_rows in Hshape as (_ & _ & H3).
      assert (H12 : Forall2 (fun r0 r2 =>
                forall c, c <> "lastSaleTime" -> c <> "lastUpdated" ->
                          cell_at c r2 = cell_at c r0) (rows df0) (rows df2)).
      { eapply Forall2_chain; [|exact H1|exact H2].
        intros r0 r1 r2 S1 S2 c Hc1 Hc2.
        rewrite (S2 c) by assumption. apply S1. assumption. }
      eapply Forall2_chain; [|exact H12|exact H3].
      intros r0 r2 r H02 S3 c Hc1 Hc2 Hc3.
      rewrite (S3 c) by assumption. apply H02; assumption.
  - destruct (batched_source lib Trade _ _ _ _ _ eq_refl Hrun)
      as (st1 & valid & df0 & Hg & Hdf & Hshape).
    exists st1, valid, df0. split; [assumption|]. split; [exact Hdf|].
    cbn [shape] in Hshape.
    destruct (decode_ms lib "time" df0) as [df1|e] eqn:H1;
      [cbn [rbind] in Hshape|discriminate].
    split.
    + rewrite (set_index_columns _ _ _ Hshape), (decode_ms_columns _ _ _ _ H1).
      reflexivity.
    + apply decode_ms_rows in H1 as (_ & _ & H1).
      apply set_index_rows in Hshape as (_ & _ & H3).
      eapply Forall2_chain; [|exact H1|exact H3].
      intros r0 r1 r S1 S3 c Hc1 Hc3.
      rewrite (S3 c) by assumption. apply S1. assumption.
Qed.

Lemma batched_passthrough_witness :
  exists df,
    snd (get_latest_quote_and_trade sample_lib ["AAPL"] sample_world initial)
      = Ok (Some df) /\
    columns df = ["bidSize"; "bidPrice"; "lastSaleTime"; "lastUpdated"] /\
    map (cell_at "bidPrice") (rows df) = [V (JFloat "149.1")].
Proof.
  eassert (Hrun : get_latest_quote_and_trade sample_lib ["AAPL"] sample_world
                    initial = (_, Ok (Some _))) by (vm_compute; reflexivity).
  destruct (proj1 (batched_passthrough sample_lib _ _ _ _ _) Hrun)
    as (st1 & valid & df0 & _).
  eexists. split; [exact (f_equal snd Hrun)|]. split; reflexivity.
Defined.

(** X14.  Nothing is fetched twice on purpose and nothing is merged: a
    per-symbol operation that returns a table has sent the reference
    fetch and one GET for each entry of the input that is in the
    reference column, a symbol requested twice being fetched twice. *)
Theorem per_symbol_request_count lib op securities w st st' df :
  per_symbol op = true ->
  run lib op securities w st = (st', Ok (Some df)) ->
  exists cells,
    reference_column (w (requests st) ref_url) = Ok cells /\
    List.length (requests st')
    = (List.length (requests st) + 1
       + List.length (filter (listed cells) securities))%nat.
Proof.
  intros Hop Hrun.
  destruct (looped_tables _ _ _ _ _ _ _ Hop Hrun)
    as (st1 & valid & batches & Hg & _ & Hsym & Hreq & _).
  apply gate_result in Hg as [-> Hval]. symmetry in Hval.
  apply validate_filter in Hval as (cells & Hcol & ->).
  exists cells. split; [assumption|].
  rewrite Hreq. unfold sent, fetches. cbn [requests].
  rewrite !length_app, length_map, <- Hsym, length_map. reflexivity.
Qed.

Lemma per_symbol_request_count_witness :
  List.length
    (requests (fst (get_trade_bars_data ["AAPL"; "MSFT"; "AAPL"] "1y"
                      sample_world initial))) = 3%nat.
Proof.
  eassert (Hrun : run sample_lib (Bars "1y") ["AAPL"; "MSFT"; "AAPL"]
                    sample_world initial = (_, Ok (Some _)))
    by (vm_compute; reflexivity).
  destruct (per_symbol_request_count sample_lib (Bars "1y") _ _ _ _ _
              eq_refl Hrun) as (cells & _ & Hlen).
  change (get_trade_bars_data ["AAPL"; "MSFT"; "AAPL"] "1y")
    with (run sample_lib (Bars "1y") ["AAPL"; "MSFT"; "AAPL"]).
  rewrite Hrun. reflexivity.
Defined.

(* ================================================================== *)
(** ** The rows of financials and earnings *)

(** Every reply recorded in a batch is what the server answered to the
    GET of the batch's symbol. *)
Lemma loop_answers lib op w ts st st' r :
  Loop lib op w ts st st' r ->
  forall bs, r = Ok bs ->
    Forall (fun b => exists history,
              answer b = w history (url_of op (symbol b))) bs.
Proof.
  induction 1 as [st | t ts st e _ | t ts st d st' r Hd _ IH]; intros bs Hr.
  - injection Hr as <-. constructor.
  - discriminate Hr.
  - destruct r as [bs0|e]; [|discriminate Hr]. injection Hr as <-.
    constructor; [exists (requests st); reflexivity | apply IH; reflexivity].
Qed.

(** A loop whose targets can all be handled, whenever they are asked
    for, ends normally. *)
Lemma loop_all_handled lib op w ts st st' r :
  Loop lib op w ts st st' r ->
  (forall history t, In t ts ->
     exists d, handler lib op t (w history (url_of op t)) = Ok d) ->
  exists bs, r = Ok bs.
Proof.
  induction 1 as [st | t ts st e He | t ts st d st' r Hd _ IH]; intros Hall.
  - exists []. reflexivity.
  - destruct (Hall (requests st) t (or_introl eq_refl)) as (d & Hd).
    rewrite Hd in He. discriminate He.
  - destruct IH as (bs & ->).
    + intros history t' Ht'. apply Hall. right; assumption.
    + eexists. reflexivity.
Qed.

(** A per-symbol operation returns a table when validation finds valid
    symbols and the reply to each of them can be handled. *)
Lemma looped_total lib op securities w st st1 valid :
  per_symbol op = true ->
  return_valid_securities securities w st = (st1, Ok valid) ->
  valid <> [] ->
  (forall history t, In t valid ->
     exists d, handler lib op t (w history (url_of op t)) = Ok d) ->
  exists st' df, run lib op securities w st = (st', Ok (Some df)).
Proof.
  intros Hop Hg Hne Hall.
  destruct (run lib op securities w st) as [st' r] eqn:Hrun.
  exists st'. pose proof (run_outcome _ _ _ _ _ _ _ Hrun) as Hout.
  destruct Hout as [st2 e Hg' | st2 Hg' | st2 valid' st' e Hg' _ Hloop
                   | st2 valid' st' batches Hg' _ Hloop];
    rewrite Hg in Hg'; try discriminate Hg'; injection Hg' as Hst Hv; subst;
    try (contradiction Hne; reflexivity).
  - unfold targets in Hloop. rewrite Hop in Hloop.
    destruct (loop_all_handled _ _ _ _ _ _ _ Hloop Hall) as (bs & Habs).
    discriminate Habs.
  - eexists. reflexivity.
Qed.

(** The batches of a returned table, with where their replies come
    from. *)
Lemma looped_batches lib op securities w st st' df :
  per_symbol op = true ->
  run lib op securities w st = (st', Ok (Some df)) ->
  exists st1 valid batches,
    return_valid_securities securities w st = (st1, Ok valid) /\
    map symbol batches = valid /\
    requests st' = requests st1 ++ fetches op batches /\
    rows df = flat_map (fun b => rows (table b)) batches /\
    Forall (fun b => handler lib op (symbol b) (answer b) = Ok (table b))
           batches /\
    Forall (fun b => exists history,
              answer b = w history (url_of op (symbol b))) batches.
Proof.
  intros Hop Hrun. apply run_outcome in Hrun.
  inversion Hrun as [| | | st1 valid st2 batches Hgate Hne Hloop]; subst.
  unfold targets in Hloop. rewrite Hop in Hloop.
  destruct (loop_ok _ _ _ _ _ _ _ Hloop batches eq_refl)
    as (Hsym & Hreq & _ & Hall).
  exists st1, valid, batches.
  unfold assemble. rewrite Hop.
  repeat split; try assumption.
  - rewrite rows_fold_append, flat_map_table. reflexivity.
  - apply (loop_answers _ _ _ _ _ _ _ Hloop). reflexivity.
Qed.

(** The batch made of a reply is counted by the array the reply holds. *)
Lemma nested_handler_counted lib op key s rep d :
  nest_of op = Some key ->
  handler lib op s rep = Ok d ->
  counted key (mkBatch s rep d).
Proof.
  intros Hnest Hh.
  assert (Hkind : match op with
                  | Financials | Earnings | Bars _ => True | _ => False end)
    by (destruct op; try discriminate Hnest; exact I).
  apply (tagging_table _ _ _ _ _ Hkind) in Hh
    as (status & data & v & Hrep & Hget & _ & Hlen).
  rewrite Hnest in Hget. unfold getitem in Hget.
  destruct data as [ | | | | | |fields]; try discriminate Hget.
  destruct (lookup key fields) as [v'|] eqn:Hkey; [|discriminate Hget].
  injection Hget as ->.
  exists status, fields, v. cbn [answer table].
  split; [assumption|]. split; [assumption|].
  intros entries ->. split.
  - rewrite Hrep. simpl. rewrite Hkey. reflexivity.
  - apply (Hlen entries eq_refl).
Qed.

Lemma nested_handler_total lib op key s status fields entries :
  nest_of op = Some key ->
  is_success status = true ->
  lookup key fields = Some (JArr (map JObj entries)) ->
  exists d, handler lib op s (Http status (Text (JObj fields))) = Ok d.
Proof.
  intros Hnest Hs Hkey.
  destruct (json_normalize_objects entries) as (df0 & Hnorm & _).
  exists (tag s df0).
  destruct op; try discriminate Hnest; injection Hnest as <-;
    unfold handler, frame_of_reply; rewrite Hs; simpl;
    rewrite Hkey; simpl; simpl in Hnorm; rewrite Hnorm; reflexivity.
Qed.

Lemma nested_counted lib op key securities w st st' df :
  nest_of op = Some key ->
  run lib op securities w st = (st', Ok (Some df)) ->
  counted_batches op key securities w st st' df /\
  exists st1 valid batches,
    return_valid_securities securities w st = (st1, Ok valid) /\
    map symbol batches = valid /\
    requests st' = requests st1 ++ fetches op batches /\
    rows df = flat_map (fun b => rows (table b)) batches /\
    Forall (counted key) batches /\
    Forall (fun b => exists history,
              answer b = w history (url_of op (symbol b))) batches.
Proof.
  intros Hnest Hrun.
  assert (Hop : per_symbol op = true)
    by (destruct op; try discriminate Hnest; reflexivity).
  destruct (looped_batches _ _ _ _ _ _ _ Hop Hrun)
    as (st1 & valid & batches & Hg & Hsym & Hreq & Hrows & Hall & Hans).
  assert (Hcount : Forall (counted key) batches).
  { eapply Forall_impl; [|exact Hall].
    intros [s rep d] Hb. cbn [symbol answer table] in Hb.
    eapply nested_handler_counted; eassumption. }
  split.
  - exists st1, valid, batches. repeat split; assumption.
  - exists st1, valid, batches. repeat split; assumption.
Qed.

(** What [get_financials] and [get_earnings] return when the server
    serves arrays of objects for the valid symbols. *)
Lemma nested_served lib op key securities w st st1 valid :
  nest_of op = Some key ->
  return_valid_securities securities w st = (st1, Ok valid) ->
  valid <> [] ->
  serves_arrays w op key valid ->
  exists st' df batches,
    run lib op securities w st = (st', Ok (Some df)) /\
    map symbol batches = valid /\
    requests st' = requests st1 ++ fetches op batches /\
    rows df = flat_map (fun b => rows (table b)) batches /\
    Forall (fun b => exists entries,
              nested_array key (answer b) = Some (map JObj entries) /\
              List.length (rows (table b)) = List.length entries) batches.
Proof.
  intros Hnest Hg Hne Hserved.
  assert (Hop : per_symbol op = true)
    by (destruct op; try discriminate Hnest; reflexivity).
  destruct (looped_total lib op _ _ _ _ _ Hop Hg Hne) as (st' & df & Hrun).
  { intros history t Ht.
    destruct (Hserved history t Ht) as (status & fields & entries & -> & Hs & Hk).
    eapply nested_handler_total; eassumption. }
  destruct (nested_counted _ _ _ _ _ _ _ _ Hnest Hrun)
    as (_ & st2 & valid' & batches & Hg' & Hsym & Hreq & Hrows & Hcount & Hans).
  rewrite Hg in Hg'. injection Hg' as <- <-.
  exists st', df, batches. repeat split; try assumption.
  apply Forall_forall. intros b Hb.
  rewrite Forall_forall in Hcount, Hans.
  destruct (Hans b Hb) as (history & Hw).
  destruct (Hserved history (symbol b)) as (status & fields & entries & Hrep & _ & Hk).
  { rewrite <- Hsym. apply in_map. assumption. }
  destruct (Hcount b Hb) as (status' & fields' & v & Hrep' & Hk' & Hlen).
  rewrite Hw, Hrep in Hrep'. injection Hrep' as <- <-.
  rewrite Hk in Hk'. injection Hk' as <-.
  destruct (Hlen (map JObj entries) eq_refl) as [Hnested Hrowsb].
  exists entries. split; [assumption|].
  rewrite Hrowsb. apply length_map.
Qed.

(** C5.  For [get_financials] and [get_earnings]: a table the method
    returns is made of one batch of rows per valid symbol, in order, and
    the batch of a symbol has as many rows as the array that the reply to
    that symbol's GET holds under [financials] (resp. [earnings]).  And
    the method does return such a table whenever validation finds valid
    symbols and the server answers each of them with a 2xx object holding
    an array of objects under the key: then every batch has exactly one
    row per entry of its array. *)
Theorem nested_rows_counted securities w st :
  (forall st' df,
     get_financials securities w st = (st', Ok (Some df)) ->
     counted_batches Financials "financials" securities w st st' df) /\
  (forall st' df,
     get_earnings securities w st = (st', Ok (Some df)) ->
     counted_batches Earnings "earnings" securities w st st' df) /\
  (forall st1 valid,
     return_valid_securities securities w st = (st1, Ok valid) ->
     valid <> [] ->
     serves_arrays w Financials "financials" valid ->
     exists st' df batches,
       get_financials securities w st = (st', Ok (Some df)) /\
       map symbol batches = valid /\
       requests st' = requests st1 ++ fetches Financials batches /\
       rows df = flat_map (fun b => rows (table b)) batches /\
       Forall (fun b => exists entries,
                 nested_array "financials" (answer b)
                   = Some (map JObj entries) /\
                 List.length (rows (table b)) = List.length entries)
              batches) /\
  (forall st1 valid,
     return_valid_securities securities w st = (st1, Ok valid) ->
     valid <> [] ->
     serves_arrays w Earnings "earnings" valid ->
     exists st' df batches,
       get_earnings securities w st = (st', Ok (Some df)) /\
       map symbol batches = valid /\
       requests st' = requests st1 ++ fetches Earnings batches /\
       rows df = flat_map (fun b => rows (table b)) batches /\
       Forall (fun b => exists entries,
                 nested_array "earnings" (answer b)
                   = Some (map JObj entries) /\
                 List.length (rows (table b)) = List.length entries)
              batches).
Proof.
  split; [|split; [|split]].
  - intros st' df Hrun.
    apply (nested_counted sample_lib Financials "financials" _ _ _ _ _
             eq_refl Hrun).
  - intros st' df Hrun.
    apply (nested_counted sample_lib Earnings "earnings" _ _ _ _ _
             eq_refl Hrun).
  - intros st1 valid Hg Hne Hserved.
    apply (nested_served sample_lib Financials "financials" _ _ _ _ _
             eq_refl Hg Hne Hserved).
  - intros st1 valid Hg Hne Hserved.
    apply (nested_served sample_lib Earnings "earnings" _ _ _ _ _
             eq_refl Hg Hne Hserved).
Qed.

Lemma nested_rows_counted_witness :
  (exists st' df,
     get_financials ["AAPL"; "MSFT"] sample_world initial = (st', Ok (Some df)) /\
     List.length (rows df) = 2%nat) /\
  (exists st' df,
     get_earnings ["AAPL"; "MSFT"] sample_world initial = (st', Ok (Some df)) /\
     List.length (rows df) = 1%nat).
Proof.
  assert (Hg : return_valid_securities ["AAPL"; "MSFT"] sample_world initial
               = (sent initial ref_url (sample_world [] ref_url), Ok ["AAPL"]))
    by (vm_compute; reflexivity).
  destruct (nested_rows_counted ["AAPL"; "MSFT"] sample_world initial)
    as (_ & _ & Hfin & Hearn).
  split.
  - destruct (Hfin _ _ Hg ltac:(discriminate)) as (st' & df & batches & Hrun & _).
    { intros history s [<-|[]]. eexists. eexists.
      exists [ [("reportDate", JStr "2017-03-31");
                ("totalRevenue", JNum 52896000000)];
               [("reportDate", JStr "2016-12-31");
                ("totalRevenue", JNum 78351000000)] ].
      split; [vm_compute; reflexivity | split; reflexivity]. }
    exists st', df. split; [exact Hrun|].
    vm_compute in Hrun. injection Hrun as <- <-. reflexivity.
  - destruct (Hearn _ _ Hg ltac:(discriminate)) as (st' & df & batches & Hrun & _).
    { intros history s [<-|[]]. eexists. eexists.
      exists [ [("actualEPS", JFloat "2.1"); ("fiscalPeriod", JStr "Q2 2017")] ].
      split; [vm_compute; reflexivity | split; reflexivity]. }
    exists st', df. split; [exact Hrun|].
    vm_compute in Hrun. injection Hrun as <- <-. reflexivity.
Defined.

(* ================================================================== *)
(** ** Decoded time columns *)

Lemma same_column c (l l' : list Row) :
  Forall2 (fun r0 r => cell_at c r = cell_at c r0) l l' ->
  map (cell_at c) l' = map (cell_at c) l.
Proof.
  induction 1; simpl; [reflexivity | f_equal; assumption].
Qed.

(** Decoding a column of integers gives their timestamps. *)
Lemma to_datetime_ms_ints lib zs out :
  to_datetime_ms lib (map (fun z => V (JNum z)) zs) = Ok out ->
  out = map (fun z => T (of_epoch_ms z)) zs.
Proof.
  unfold to_datetime_ms. rewrite all_ints_of_ints.
  destruct (forallb representable zs); [|discriminate].
  intros H. injection H as <-. reflexivity.
Qed.

(** The column of an integer field in the table of an array of objects. *)
Lemma int_field_column c items zs df0 :
  has_dot c = false ->
  ms_fields c items zs ->
  json_normalize (JArr (map JObj items)) = Ok df0 ->
  map (cell_at c) (rows df0) = map (fun z => V (JNum z)) zs.
Proof.
  intros _ Hfields Hnorm.
  destruct (json_normalize_objects items) as (df1 & Hnorm1 & Hrows).
  rewrite Hnorm in Hnorm1. injection Hnorm1 as <-.
  rewrite Hrows, map_map. clear Hnorm Hrows.
  induction Hfields as [|fields z items zs Hf _ IH]; simpl; [reflexivity|].
  rewrite (plain_field c fields (JNum z) Hf eq_refl), IH. reflexivity.
Qed.

Lemma decoded_ints lib c df0 df status items zs rep :
  has_dot c = false ->
  decoded_column lib c df0 df ->
  frame_of_reply None rep = Ok df0 ->
  rep = Http status (Text (JArr (map JObj items))) ->
  ms_fields c items zs ->
  map (cell_at c) (rows df) = map (fun z => T (of_epoch_ms z)) zs.
Proof.
  intros Hc Hdec Hdf -> Hfields. unfold decoded_column in Hdec.
  apply frame_of_reply_plain in Hdf as (status' & doc & Heq & _ & Hnorm).
  injection Heq as _ <-.
  rewrite (int_field_column c items zs df0 Hc Hfields Hnorm) in Hdec.
  apply (to_datetime_ms_ints lib). assumption.
Qed.

(** The table of the quote-and-trade request, column by column. *)
Lemma quote_columns lib df0 df :
  shape lib QuoteTrade "" df0 = Ok df ->
  index df = Keyed "symbol" (map (cell_at "symbol") (rows df0)) /\
  ~ In "symbol" (columns df) /\
  decoded_column lib "lastSaleTime" df0 df /\
  decoded_column lib "lastUpdated" df0 df.
Proof.
  cbn [shape]. intros H.
  destruct (decode_ms lib "lastSaleTime" df0) as [df1|e] eqn:H1;
    [cbn [rbind] in H|discriminate].
  destruct (decode_ms lib "lastUpdated" df1) as [df2|e] eqn:H2;
    [cbn [rbind] in H|discriminate].
  apply decode_ms_rows in H1 as (_ & D1 & S1), H2 as (_ & D2 & S2).
  apply set_index_rows in H as (Hidx & Hcol & S3).
  assert (K : forall c, c <> "lastSaleTime" ->
                map (cell_at c) (rows df1) = map (cell_at c) (rows df0)).
  { intros c Hc. apply same_column. eapply Forall2_impl; [|exact S1].
    intros r0 r S. apply S. assumption. }
  assert (L : forall c, c <> "lastUpdated" ->
                map (cell_at c) (rows df2) = map (cell_at c) (rows df1)).
  { intros c Hc. apply same_column. eapply Forall2_impl; [|exact S2].
    intros r0 r S. apply S. assumption. }
  assert (M : forall c, c <> "symbol" ->
                map (cell_at c) (rows df) = map (cell_at c) (rows df2)).
  { intros c Hc. apply same_column. eapply Forall2_impl; [|exact S3].
    intros r0 r S. apply S. assumption. }
  split; [|split; [assumption|split]].
  - rewrite Hidx, L, K by discriminate. reflexivity.
  - unfold decoded_column in *.
    rewrite M, L by discriminate. exact D1.
  - unfold decoded_column in *.
    rewrite M by discriminate. rewrite <- K by discriminate. exact D2.
Qed.

(** The table of the trade request, column by column. *)
Lemma trade_columns lib df0 df :
  shape lib Trade "" df0 = Ok df ->
  index df = Keyed "symbol" (map (cell_at "symbol") (rows df0)) /\
  ~ In "symbol" (columns df) /\
  decoded_column lib "time" df0 df.
Proof.
  cbn [shape]. intros H.
  destruct (decode_ms lib "time" df0) as [df1|e] eqn:H1;
    [cbn [rbind] in H|discriminate].
  apply decode_ms_rows in H1 as (_ & D1 & S1).
  apply set_index_rows in H as (Hidx & Hcol & S3).
  assert (K : forall c, c <> "time" ->
                map (cell_at c) (rows df1) = map (cell_at c) (rows df0)).
  { intros c Hc. apply same_column. eapply Forall2_impl; [|exact S1].
    intros r0 r S. apply S. assumption. }
  assert (M : forall c, c <> "symbol" ->
                map (cell_at c) (rows df) = map (cell_at c) (rows df1)).
  { intros c Hc. apply same_column. eapply Forall2_impl; [|exact S3].
    intros r0 r S. apply S. assumption. }
  split; [|split; [assumption|]].
  - rewrite Hidx, K by discriminate. reflexivity.
  - unfold decoded_column in *. rewrite M by discriminate. exact D1.
Qed.

(** No cell of a table made by tagging the table of a reply is a
    timestamp. *)
Lemma tagged_table_no_timestamp lib bucket s rep d :
  handler lib (Bars bucket) s rep = Ok d ->
  forall r c t, In r (rows d) -> cell_at c r <> T t.
Proof.
  intros Hh r c t Hr.
  apply (tagging_table lib (Bars bucket) _ _ _ I) in Hh
    as (status & data & v & _ & _ & Hrel & _).
  assert (Hex : exists entry, tagged s r /\ same_but "symbol" (row_of_record entry) r).
  { clear -Hrel Hr. induction Hrel as [|entry r' l l' Hre _ IH].
    - destruct Hr.
    - destruct Hr as [<-|Hr]; [exists entry; exact Hre | apply IH; exact Hr]. }
  destruct Hex as (entry & Htag & Hsame).
  destruct (String.eqb c "symbol") eqn:E.
  - apply String.eqb_eq in E. subst c. unfold tagged in Htag.
    rewrite Htag. discriminate.
  - apply String.eqb_neq in E. rewrite (Hsame c E).
    unfold cell_at, row_of_record.
    induction (nested_to_record entry) as [|[k x] l IH]; simpl; [discriminate|].
    destruct (String.eqb c k); [discriminate | exact IH].
Qed.

(** C6, as amended.  Decoding the epoch-millisecond value 1500000000000
    gives 2017-07-14 02:40:00 UTC.  In a table returned by
    [get_latest_quote_and_trade] the columns [lastSaleTime] and
    [lastUpdated] are the decoded columns of the table fetched, and the
    rows are keyed by the fetched [symbol] column; in one returned by
    [get_latest_trade] the column [time] is decoded, and the rows are keyed
    likewise.  When every object of the reply carries the field as an
    integer, the decoded column holds exactly the timestamps of those
    integers.  [get_trade_bars_data] decodes nothing: no cell of a table
    it returns is a timestamp. *)
Theorem epoch_fields_decoded lib securities w st st' df :
  to_datetime_ms lib [V (JNum 1500000000000)]
    = Ok [T (mkTimestamp 2017 7 14 2 40 0 0)] /\
  (get_latest_quote_and_trade lib securities w st = (st', Ok (Some df)) ->
   exists st1 valid df0,
     let url := ("https://api.iextrading.com/1.0/tops?symbols="
                 ++ String.concat "," valid)%string in
     return_valid_securities securities w st = (st1, Ok valid) /\
     _url_to_dataframe url None w st1 = (st', Ok df0) /\
     index df = Keyed "symbol" (map (cell_at "symbol") (rows df0)) /\
     ~ In "symbol" (columns df) /\
     decoded_column lib "lastSaleTime" df0 df /\
     decoded_column lib "lastUpdated" df0 df /\
     forall status items,
       w (requests st1) url = Http status (Text (JArr (map JObj items))) ->
       (forall zs, ms_fields "lastSaleTime" items zs ->
          map (cell_at "lastSaleTime") (rows df)
          = map (fun z => T (of_epoch_ms z)) zs) /\
       (forall zs, ms_fields "lastUpdated" items zs ->
          map (cell_at "lastUpdated") (rows df)
          = map (fun z => T (of_epoch_ms z)) zs)) /\
  (get_latest_trade lib securities w st = (st', Ok (Some df)) ->
   exists st1 valid df0,
     let url := ("https://api.iextrading.com/1.0/tops/last?symbols="
                 ++ String.concat "," valid)%string in
     return_valid_securities securities w st = (st1, Ok valid) /\
     _url_to_dataframe url None w st1 = (st', Ok df0) /\
     index df = Keyed "symbol" (map (cell_at "symbol") (rows df0)) /\
     ~ In "symbol" (columns df) /\
     decoded_column lib "time" df0 df /\
     forall status items zs,
       w (requests st1) url = Http status (Text (JArr (map JObj items))) ->
       ms_fields "time" items zs ->
       map (cell_at "time") (rows df) = map (fun z => T (of_epoch_ms z)) zs) /\
  (forall bucket,
     get_trade_bars_data securities bucket w st = (st', Ok (Some df)) ->
     forall r c t, In r (rows df) -> cell_at c r <> T t).
Proof.
  split; [reflexivity|]. split; [|split].
  - intros Hrun.
    destruct (batched_source lib QuoteTrade _ _ _ _ _ eq_refl Hrun)
      as (st1 & valid & df0 & Hg & Hdf & Hshape).
    exists st1, valid, df0. cbv zeta.
    apply quote_columns in Hshape as (Hidx & Hcol & D1 & D2).
    split; [assumption|]. split; [exact Hdf|].
    split; [assumption|]. split; [assumption|].
    split; [assumption|]. split; [assumption|].
    intros status items Hrep.
    rewrite url_to_dataframe_run in Hdf.
    pose proof (f_equal snd Hdf) as Hframe. cbn [snd] in Hframe.
    split; intros zs Hzs.
    + eapply (decoded_ints lib "lastSaleTime"); try eassumption. reflexivity.
    + eapply (decoded_ints lib "lastUpdated"); try eassumption. reflexivity.
  - intros Hrun.
    destruct (batched_source lib Trade _ _ _ _ _ eq_refl Hrun)
      as (st1 & valid & df0 & Hg & Hdf & Hshape).
    exists st1, valid, df0. cbv zeta.
    apply trade_columns in Hshape as (Hidx & Hcol & D1).
    split; [assumption|]. split; [exact Hdf|].
    split; [assumption|]. split; [assumption|]. split; [assumption|].
    intros status items zs Hrep Hzs.
    rewrite url_to_dataframe_run in Hdf.
    pose proof (f_equal snd Hdf) as Hframe. cbn [snd] in Hframe.
    eapply (decoded_ints lib "time"); try eassumption. reflexivity.
  - intros bucket Hrun r c t Hr.
    destruct (looped_tables lib (Bars bucket) _ _ _ _ _ eq_refl Hrun)
      as (st1 & valid & batches & _ & _ & _ & _ & _ & Hall & _ & Hrows).
    rewrite Hrows in Hr. apply in_flat_map in Hr as (b & Hb & Hr).
    rewrite Forall_forall in Hall.
    exact (tagged_table_no_timestamp lib bucket _ _ _ (Hall b Hb) r c t Hr).
Qed.

Lemma epoch_fields_decoded_witness :
  (exists df,
     snd (get_latest_quote_and_trade sample_lib ["AAPL"; "MSFT"] sample_world
            initial) = Ok (Some df) /\
     index df = Keyed "symbol" [V (JStr "AAPL")] /\
     map (cell_at "lastSaleTime") (rows df)
       = [T (mkTimestamp 2017 7 14 2 40 0 0)] /\
     map (cell_at "lastUpdated") (rows df)
       = [T (mkTimestamp 2017 7 14 2 40 0 0)]) /\
  (exists df,
     snd (get_latest_trade sample_lib ["AAPL"; "MSFT"] sample_world initial)
       = Ok (Some df) /\
     map (cell_at "time") (rows df) = [T (mkTimestamp 2017 7 14 2 40 0 0)]).
Proof.
  split.
  - eassert (Hrun : get_latest_quote_and_trade sample_lib ["AAPL"; "MSFT"]
                      sample_world initial = (_, Ok (Some _)))
      by (vm_compute; reflexivity).
    destruct (proj1 (proj2 (epoch_fields_decoded sample_lib _ _ _ _ _)) Hrun)
      as (st1 & valid & df0 & Hg & _ & Hidx & _ & _ & _ & Hints).
    vm_compute in Hg. injection Hg as <- <-.
    destruct (Hints 200
                [ [("symbol", JStr "AAPL"); ("bidSize", JNum 100);
                   ("bidPrice", JFloat "149.1");
                   ("lastSaleTime", JNum 1500000000000);
                   ("lastUpdated", JNum 1500000000000)] ]
                ltac:(vm_compute; reflexivity)) as [Hsale Hupdated].
    eexists. split; [exact (f_equal snd Hrun)|]. split; [reflexivity|].
    split.
    + apply (Hsale [1500000000000]). repeat constructor.
    + apply (Hupdated [1500000000000]). repeat constructor.
  - eassert (Hrun : get_latest_trade sample_lib ["AAPL"; "MSFT"] sample_world
                      initial = (_, Ok (Some _)))
      by (vm_compute; reflexivity).
    destruct (proj1 (proj2 (proj2 (epoch_fields_decoded sample_lib _ _ _ _ _)))
                Hrun)
      as (st1 & valid & df0 & Hg & _ & _ & _ & _ & Hints).
    vm_compute in Hg. injection Hg as <- <-.
    eexists. split; [exact (f_equal snd Hrun)|].
    apply (Hints 200
             [ [("symbol", JStr "AAPL"); ("price", JFloat "149.1");
                ("size", JNum 100); ("time", JNum 1500000000000)] ]
             [1500000000000]); [vm_compute; reflexivity | repeat constructor].
Defined.

(** C6 as stated fails for bars: [get_trade_bars_data] decodes nothing.
    A bar whose [date] is the epoch-millisecond value 1500000000000 comes
    back with the same integer in its [date] column, not the timestamp
    2017-07-14 02:40:00 that decoding it gives. *)
Lemma bars_not_decoded :
  exists st' df,
    get_trade_bars_data ["AAPL"] "1y" epoch_chart_world initial
      = (st', Ok (Some df)) /\
    map (cell_at "date") (rows df) = [V (JNum 1500000000000)] /\
    to_datetime_ms sample_lib [V (JNum 1500000000000)]
      = Ok [T (mkTimestamp 2017 7 14 2 40 0 0)] /\
    map (cell_at "date") (rows df) <> [T (mkTimestamp 2017 7 14 2 40 0 0)].
Proof.
  eexists. eexists. split; [vm_compute; reflexivity|].
  split; [reflexivity|]. split; [reflexivity|]. discriminate.
Qed.
